(** * PRICE_LENS: the evidence generation and explanation pipeline

    A shallow embedding of [attribution_engine.py] (class [AttributionEngine])
    and [genai_explainer.py] (class [GenAIExplainer]), of [pricing_model.py]
    (class [PricingModel]) and of the loop of [main.py] that drives them, and
    the properties of the pipeline proved over it.

    Modelling conventions.
    - A Python [str] is a [string]: the bytes of its UTF-8 encoding, which is
      what a string literal of this file denotes.  Searching and replacing a
      well-formed pattern in a well-formed text gives the same result on the
      bytes as on the code points; the facts about [str.replace] are proved
      for any alphabet.
    - A Python number is a [number]: an [int] carries a [Z], a [float] carries
      a rational [q] and stands for the double nearest to [q] (the value of
      the literal [q]).  The price gate of [analyze_change] is computed as
      the code computes it, in double arithmetic (module [Double]), and
      raises where the conversion of an int to a float raises.  The
      arithmetic of the attributions (percentage changes, normalization,
      display) is exact: there the rounding error of binary floating point,
      overflow, infinities and NaN are outside the model, and what is proved
      of the values it computes is proved of exact rationals.
    - A Python [dict] is an association list in insertion order.
    - A raised exception is the [Raise] outcome of the [res] type.
    - The audit sink ([audit_logger.log_event]) appends to an explicit list
      of events; the file it writes to is outside the model.
    - What an f-string prints for a value, and [str.title], are left open:
      the rendering functions take them as arguments, and every theorem
      about them holds whatever they are.
    - The SHAP explainer, the clock and the UUID source are inputs of
      [analyze_change]; the XGBoost regressor and the fluctuation that
      [random.choice] draws are inputs of the pricing model. *)

From Stdlib Require Import List Bool Arith ZArith QArith Qround Qabs Qpower.
From Stdlib Require Import String Ascii Lia Lqa Permutation Sorted.
Import ListNotations.

Close Scope Q_scope.

(* ================================================================== *)
(** * Part I: definitions *)
(* ================================================================== *)

(** ** Strings: [str.startswith], [in] and [str.replace] *)

Module PyStr.

Section Sequences.
Context {A : Type}.
Variable eqb : A -> A -> bool.

(** [s.startswith(p)]. *)
Fixpoint startswith (s p : list A) {struct p} : bool :=
  match p, s with
  | [], _ => true
  | _ :: _, [] => false
  | a :: p', c :: s' => eqb a c && startswith s' p'
  end.

(** [p in s]: [p] occurs in [s] as a contiguous block. *)
Fixpoint contains (s p : list A) : bool :=
  startswith s p ||
  match s with
  | [] => false
  | _ :: s' => contains s' p
  end.

(** The left-to-right scan of [s.replace(old, new)] for a non-empty [old]:
    [skip] counts the elements of a match just replaced that are still to
    be dropped from the input. *)
Fixpoint replace_from (old new : list A) (skip : nat) (s : list A) : list A :=
  match s with
  | [] => []
  | c :: s' =>
      match skip with
      | S k => replace_from old new k s'
      | O =>
          if startswith s old
          then new ++ replace_from old new (List.length old - 1) s'
          else c :: replace_from old new 0 s'
      end
  end.

(** [s.replace(old, new)]: every non-overlapping occurrence of [old], found
    from the left, is replaced by [new]; an empty [old] (the code passes
    none) matches before every element and at the end. *)
Definition replace (s old new : list A) : list A :=
  match old with
  | [] => new ++ flat_map (fun c => c :: new) s
  | _ :: _ => replace_from old new 0 s
  end.
End Sequences.

Definition chars : string -> list ascii := list_ascii_of_string.
Definition text : list ascii -> string := string_of_list_ascii.

Definition str_startswith (s p : string) : bool :=
  startswith Ascii.eqb (chars s) (chars p).

Definition str_contains (s p : string) : bool :=
  contains Ascii.eqb (chars s) (chars p).

Definition str_replace (s old new : string) : string :=
  text (replace Ascii.eqb (chars s) (chars old) (chars new)).

End PyStr.

Import PyStr.

Open Scope string_scope.

(** ** Numbers and values *)

(** A Python number: [int] or [float]. *)
Inductive number : Type :=
| Int (z : Z)
| Float (q : Q).

Definition number_Q (n : number) : Q :=
  match n with
  | Int z => inject_Z z
  | Float q => q
  end.

(** The JSON-compatible universe of values an evidence record is made of. *)
#[warnings="-register-all"] Inductive value : Type :=
| VNone
| VBool (b : bool)
| VNum (n : number)
| VStr (s : string)
| VList (l : list value)
| VDict (d : list (string * value)).

Definition dict : Type := list (string * value).

(** [d.get(key)] as an option, and [key in d]. *)
Fixpoint lookup {V : Type} (key : string) (d : list (string * V)) : option V :=
  match d with
  | [] => None
  | (k, v) :: d' => if String.eqb k key then Some v else lookup key d'
  end.

Definition has_key {V : Type} (key : string) (d : list (string * V)) : bool :=
  match lookup key d with
  | Some _ => true
  | None => false
  end.

(** [d.get(key, default)]. *)
Definition dict_get (d : dict) (key : string) (default : value) : value :=
  match lookup key d with
  | Some v => v
  | None => default
  end.

(** Python truthiness ([bool(v)]). *)
Definition truthy (v : value) : bool :=
  match v with
  | VNone => false
  | VBool b => b
  | VNum n => negb (Qeq_bool (number_Q n) 0)
  | VStr s => negb (String.eqb s EmptyString)
  | VList l => match l with [] => false | _ => true end
  | VDict d => match d with [] => false | _ => true end
  end.

(** ** Exceptions *)

Inductive exn : Type :=
| KeyError
| TypeError
| AttributeError
| IndexError
| OverflowError
| ExplainerError.

(** The outcome of a computation that may raise. *)
Inductive res (A : Type) : Type :=
| Ok (a : A)
| Raise (e : exn).

Arguments Ok {A} a.
Arguments Raise {A} e.

Definition bind {A B : Type} (m : res A) (k : A -> res B) : res B :=
  match m with
  | Ok a => k a
  | Raise e => Raise e
  end.

Notation "x <- m ;; k" := (bind m (fun x => k))
  (at level 61, m at next level, right associativity).

(** ** Operations on values *)

(** [d[key]] on a dict. *)
Definition getitem (d : dict) (key : string) : res value :=
  match lookup key d with
  | Some v => Ok v
  | None => Raise KeyError
  end.

(** [v[key]] with a string key: only a dict can be subscripted by one. *)
Definition subscript (v : value) (key : string) : res value :=
  match v with
  | VDict d => getitem d key
  | _ => Raise TypeError
  end.

(** The numeric reading of a value; [bool] is a subtype of [int]. *)
Definition as_number (v : value) : res Q :=
  match v with
  | VNum n => Ok (number_Q n)
  | VBool b => Ok (if b then 1%Q else 0%Q)
  | _ => Raise TypeError
  end.

(** [abs(v)]. *)
Definition py_abs (v : value) : res Q :=
  q <- as_number v ;; Ok (Qabs q).

(** [a == b]; it never raises on these values. *)
Fixpoint py_eq (a b : value) {struct a} : bool :=
  match a, b with
  | VNone, VNone => true
  | VBool x, VBool y => Bool.eqb x y
  | VBool x, VNum n => Qeq_bool (if x then 1%Q else 0%Q) (number_Q n)
  | VNum n, VBool y => Qeq_bool (number_Q n) (if y then 1%Q else 0%Q)
  | VNum n, VNum m => Qeq_bool (number_Q n) (number_Q m)
  | VStr s, VStr t => String.eqb s t
  | VList l, VList m =>
      (fix all2 (l m : list value) {struct l} : bool :=
         match l, m with
         | [], [] => true
         | x :: l', y :: m' => py_eq x y && all2 l' m'
         | _, _ => false
         end) l m
  | VDict d, VDict e =>
      Nat.eqb (List.length d) (List.length e) &&
      (fix all (d : list (string * value)) {struct d} : bool :=
         match d with
         | [] => true
         | (k, v) :: d' =>
             match lookup k e with
             | Some w => py_eq v w
             | None => false
             end && all d'
         end) d
  | _, _ => false
  end.

(** [a > b]: numbers with numbers, strings with strings, lists with lists
    (decided at the first pair of unequal elements, else by length); any other
    pairing raises [TypeError]. *)
Fixpoint py_gt (a b : value) {struct a} : res bool :=
  match a, b with
  | VNum _, VNum _ | VNum _, VBool _ | VBool _, VNum _ | VBool _, VBool _ =>
      x <- as_number a ;; y <- as_number b ;;
      Ok (negb (Qle_bool x y))
  | VStr s, VStr t => Ok (String.ltb t s)
  | VList l, VList m =>
      (fix scan (l m : list value) {struct l} : res bool :=
         match l, m with
         | [], _ => Ok false
         | _ :: _, [] => Ok true
         | x :: l', y :: m' => if py_eq x y then scan l' m' else py_gt x y
         end) l m
  | _, _ => Raise TypeError
  end.

(** [v >= c] for a float literal [c]. *)
Definition py_ge_float (v : value) (c : Q) : res bool :=
  x <- as_number v ;; Ok (Qle_bool c x).

(** The values a [for] loop (or [sorted]) draws from [v]: the elements of a
    list, the keys of a dict, the characters of a string (here the bytes of
    its encoding: the renderer subscripts each by a key, which raises on a
    string of any length). *)
Definition iterate (v : value) : res (list value) :=
  match v with
  | VList l => Ok l
  | VDict d => Ok (map (fun kv => VStr (fst kv)) d)
  | VStr s => Ok (map (fun c => VStr (String c EmptyString)) (chars s))
  | _ => Raise TypeError
  end.

Fixpoint mapM {A B : Type} (f : A -> res B) (l : list A) : res (list B) :=
  match l with
  | [] => Ok []
  | x :: l' => y <- f x ;; ys <- mapM f l' ;; Ok (y :: ys)
  end.

(** ** Rounding *)

(** [round(q)]: the nearest integer, a tie going to the even one. *)
Definition round_half_even (q : Q) : Z :=
  let f := Qfloor q in
  match Qcompare (q - inject_Z f) (1 # 2) with
  | Lt => f
  | Gt => (f + 1)%Z
  | Eq => if Z.even f then f else (f + 1)%Z
  end.

Fixpoint pow10 (ndigits : nat) : positive :=
  match ndigits with
  | O => 1%positive
  | S n => (10 * pow10 n)%positive
  end.

(** [round(q, ndigits)] for a float [q]. *)
Definition py_round (q : Q) (ndigits : nat) : Q :=
  round_half_even (q * inject_Z (Zpos (pow10 ndigits))) # pow10 ndigits.

(** ** Double-precision arithmetic

    The price gate of [analyze_change] is computed as the code computes it,
    in binary64 arithmetic: an operation returns the double nearest to the
    exact result, a tie going to the even significand, and an infinity
    beyond the range of the doubles. *)

Module Double.

(** A value of binary64 arithmetic: a finite double, given by the rational
    it is; an infinity; or NaN.  The sign of a zero is not kept: nothing
    below tells [-0.0] from [0.0]. *)
Inductive double : Type :=
| Finite (q : Q)
| Infinite (negative : bool)
| NaN.

(** [floor (log2 q)] for a positive [q]. *)
Definition ilog2 (q : Q) : Z :=
  let e := (Z.log2 (Qnum q) - Z.log2 (Zpos (Qden q)))%Z in
  if Qle_bool (2 ^ e) q then e else (e - 1)%Z.

Definition opp (x : double) : double :=
  match x with
  | Finite q => Finite (- q)
  | Infinite negative => Infinite (negb negative)
  | NaN => NaN
  end.

(** The double nearest to a positive [q]: the significand has 53 bits in the
    binade of [q], or ends at [2 ^ -1074] below the normal range; the result
    that reaches [2 ^ 1024] is the infinity. *)
Definition nearest_positive (q : Q) : double :=
  let e := Z.max (ilog2 q) (-1022) in
  let ulp := (2 ^ (e - 52))%Q in
  let r := Qred (inject_Z (round_half_even (q / ulp)) * ulp) in
  if Qle_bool (2 ^ 1024) r then Infinite false else Finite r.

(** The double nearest to [q]: what the float literal [q] evaluates to, and
    what an operation whose exact result is [q] returns. *)
Definition nearest (q : Q) : double :=
  match Qcompare q 0 with
  | Eq => Finite 0
  | Gt => nearest_positive q
  | Lt => opp (nearest_positive (- q))
  end.

(** [x - y]. *)
Definition sub (x y : double) : double :=
  match x, y with
  | Finite a, Finite b => nearest (a - b)
  | Finite _, Infinite negative => Infinite (negb negative)
  | Infinite negative, Finite _ => Infinite negative
  | Infinite a, Infinite b => if Bool.eqb a b then NaN else Infinite a
  | _, _ => NaN
  end.

(** [abs(x)]. *)
Definition abs (x : double) : double :=
  match x with
  | Finite q => Finite (Qabs q)
  | Infinite _ => Infinite false
  | NaN => NaN
  end.

(** [x < y]: false when either is NaN. *)
Definition ltb (x y : double) : bool :=
  match x, y with
  | Finite a, Finite b => negb (Qle_bool b a)
  | Finite _, Infinite negative => negb negative
  | Infinite negative, Finite _ => negative
  | Infinite a, Infinite b => a && negb b
  | _, _ => false
  end.

(** [z < y] for an int [z]: the comparison is exact, the int is not
    converted. *)
Definition int_ltb (z : Z) (y : double) : bool :=
  match y with
  | Finite b => negb (Qle_bool b (inject_Z z))
  | Infinite negative => negb negative
  | NaN => false
  end.

End Double.

(** The double a number is read as where it meets a float: a float [q]
    stands for the double nearest to [q] (the value of the literal [q]); an
    int is converted, which raises when it is beyond the doubles. *)
Definition float_of (n : number) : res Double.double :=
  match n with
  | Float q => Ok (Double.nearest q)
  | Int z =>
      match Double.nearest (inject_Z z) with
      | Double.Finite q => Ok (Double.Finite q)
      | _ => Raise OverflowError
      end
  end.

(** [sum(l)]: the additions run from the left, starting at 0. *)
Definition py_sum (l : list Q) : Q := fold_left Qplus l 0%Q.

(** ** [sorted(l, key=..., reverse=True)]

    The sort is stable also in reverse: elements whose keys compare equal keep
    the order they had.  It is written here as an insertion sort over the
    pairs of a key and its element, the keys having been computed first. *)

Section Sorting.
Context {A : Type}.

Definition key_gt (x y : Q * A) : bool := negb (Qle_bool (fst x) (fst y)).

Fixpoint insert_desc (x : Q * A) (l : list (Q * A)) : list (Q * A) :=
  match l with
  | [] => [x]
  | y :: l' => if key_gt y x then y :: insert_desc x l' else x :: l
  end.

Definition sort_desc (l : list (Q * A)) : list (Q * A) :=
  fold_right insert_desc [] l.
End Sorting.

(** ** [GenAIExplainer.safety_filter] *)

Definition safety_filter (text : string) (flags : dict) : string :=
  if truthy (dict_get flags "hide_exact_costs" (VBool false))
  then
    let text := str_replace text "₹" "₹~" in
    let text := str_replace text "INR" "INR~" in
    text
  else text.

(** ** The audit sink *)

(** An audit event: its type and its structured details. *)
Definition event : Type := (string * value)%type.

(** [audit_logger.log_event(event_type, details)]. *)
Definition log_event (log : list event) (event_type : string) (details : value)
  : list event :=
  (log ++ [(event_type, details)])%list.

(** ** [GenAIExplainer] *)

Definition nl : string := String (ascii_of_nat 10) EmptyString.

Definition required_fields : list string :=
  [ "old_price"; "new_price"; "currency";
    "model_version"; "time_window";
    "features_used"; "confidence_score"; "safety_flags";
    "xai_method" ].

Definition refused (reason : string) : value :=
  VDict [("reason", VStr reason)].

(** [validate_evidence]: the verdict, and the audit log after the call.
    Where the loop over the required fields found none missing,
    [confidence_score] is present. *)
Definition validate_evidence (evidence : dict) (log : list event)
  : bool * list event :=
  match find (fun field => negb (has_key field evidence)) required_fields with
  | Some field =>
      (false, log_event log "GENERATION_REFUSED"
                (refused ("Missing field: " ++ field)))
  | None =>
      match lookup "confidence_score" evidence with
      | Some VNone | None =>
          (false, log_event log "GENERATION_REFUSED"
                    (refused "Missing confidence score"))
      | Some _ =>
          if negb (py_eq (dict_get evidence "xai_method" VNone) (VStr "SHAP"))
          then (false, log_event log "GENERATION_REFUSED"
                         (refused "Invalid XAI method (must be SHAP)"))
          else (true, log)
      end
  end.

(** [get_confidence_label]. *)
Definition get_confidence_label (score : value) : res string :=
  high <- py_ge_float score (80 # 100) ;;
  if high then Ok "High confidence"
  else
    medium <- py_ge_float score (50 # 100) ;;
    if medium then Ok "Medium confidence"
    else Ok "Low confidence".

Definition refusal_text : string :=
  "Explanation unavailable due to data validation failure.".

Definition refusal_payload : dict :=
  [ ("customer_text", VStr refusal_text);
    ("regulator_text", VStr refusal_text);
    ("error", VStr "Validation Failed") ].

(** The sort key [lambda x: abs(x['attribution'])]. *)
Definition abs_attribution (x : value) : res Q :=
  a <- subscript x "attribution" ;; py_abs a.

(** [sorted(features, key=lambda x: abs(x['attribution']), reverse=True)]. *)
Definition sorted_features_of (features : value) : res (list value) :=
  items <- iterate features ;;
  keyed <- mapM (fun x => k <- abs_attribution x ;; Ok (k, x)) items ;;
  Ok (map snd (sort_desc keyed)).

Section Rendering.
(** What an f-string prints for a value ([format(v)]); the printed form of
    a float is not a function of the rational it stands for, so the
    formatter is left open. *)
Variable format_value : value -> string.
(** [str.title]. *)
Variable str_title : string -> string.

(** The name shown to a customer. *)
Definition friendly_name_of (raw_name : string) : string :=
  let friendly_name := str_title (str_replace raw_name "_" " ") in
  let friendly_name :=
    if raw_name =? "raw_material_cost" then "Raw Material Costs"
    else friendly_name in
  let friendly_name :=
    if raw_name =? "demand_index" then "Market Demand"
    else friendly_name in
  let friendly_name :=
    if raw_name =? "inventory_level" then "Inventory Availability"
    else friendly_name in
  let friendly_name :=
    if raw_name =? "competitor_price_avg" then "Competitor Pricing"
    else friendly_name in
  friendly_name.

(** The body of the loop over the sorted features: the line it adds to the
    attribution section. *)
Definition feature_line (audience : string) (f : value) : res string :=
  a <- subscript f "attribution" ;;
  scaled <- as_number a ;;
  let impact_pct := round_half_even (scaled * 100) in
  change_pct <- subscript f "value_change_pct" ;;
  raw_name <- subscript f "name" ;;
  match raw_name with
  | VStr raw =>
      let friendly_name := friendly_name_of raw in
      if audience =? "regulator"
      then
        Ok ("• " ++ raw ++ ": " ++ format_value (VNum (Int impact_pct))
            ++ "% attribution (Input change: " ++ format_value change_pct
            ++ "%)" ++ nl)
      else
        up <- py_gt change_pct (VNum (Int 0)) ;;
        let direction := if (up : bool) then "increased" else "decreased" in
        let direction :=
          if raw =? "competitor_price_avg" then "fluctuation"
          else direction in
        Ok ("• " ++ friendly_name ++ ": ≈"
            ++ format_value (VNum (Int impact_pct))
            ++ "% impact (Factor " ++ direction ++ ")" ++ nl)
  | _ => Raise AttributeError
  end.

Definition title_of (audience : string) : string :=
  "Price Change Explanation" ++
  (if audience =? "regulator" then " (Regulatory Audit)"
   else " (Customer Summary)").

Definition summary_section_of
  (audience : string)
  (currency old_price new_price from_date to_date model_version : value)
  : string :=
  "**Price Change Summary**" ++ nl ++
  "• Price: " ++ format_value currency ++ format_value old_price ++ " → "
  ++ format_value currency ++ format_value new_price ++ nl ++
  "• Time Window: " ++ format_value from_date ++ " to "
  ++ format_value to_date ++ nl ++
  (if audience =? "regulator"
   then "• ML Model: " ++ format_value model_version ++ nl
   else EmptyString).

(** The attribution section before the loop: its heading and the narrative
    introduction. *)
Definition attribution_intro (audience : string) (increase : bool) : string :=
  let direction_str := if increase then "increase" else "decrease" in
  "**Machine Learning–Based Feature Attribution**" ++ nl ++
  (if audience =? "regulator"
   then "The model detected a price " ++ direction_str
        ++ " driven by the following factors:" ++ nl
   else "We adjusted the price due to the following main factors:" ++ nl).

Definition confidence_section_of
  (audience label : string) (confidence_score model_version xai_method : value)
  : string :=
  "**Confidence Score & Methodology**" ++ nl ++
  "• Confidence Level: " ++ label ++ " (" ++ format_value confidence_score
  ++ ")" ++ nl ++
  "• Methodology: Feature importance calculated using "
  ++ format_value xai_method ++ "." ++ nl ++
  (if audience =? "regulator"
   then "• Traceability: All values derived from Model "
        ++ format_value model_version ++ " via " ++ format_value xai_method
        ++ "." ++ nl
   else EmptyString).

Definition disclaimer_section_of (audience : string) : string :=
  "**Disclaimer**" ++ nl ++
  "This explanation is generated automatically based on model inputs. " ++
  "It does not constitute a legal or binding commitment. " ++
  (if audience =? "customer"
   then "Please contact support for detailed inquiries."
   else EmptyString).

(** The text around the feature lines: what precedes them and what
    follows. *)
Definition assemble
  (title summary_section attribution_section confidence_section
     disclaimer_section : string) : string :=
  "# " ++ title ++ nl ++ nl ++ summary_section ++ nl ++ attribution_section
  ++ nl ++ confidence_section ++ nl ++ disclaimer_section.

(** [format_explanation]: the five-section text for one audience. *)
Definition format_explanation (evidence : dict) (audience : string)
  : res string :=
  old_price <- getitem evidence "old_price" ;;
  new_price <- getitem evidence "new_price" ;;
  cur <- getitem evidence "currency" ;;
  let currency := if py_eq cur (VStr "INR") then VStr "₹" else cur in
  window <- getitem evidence "time_window" ;;
  from_date <- subscript window "from" ;;
  to_date <- subscript window "to" ;;
  model_version <- getitem evidence "model_version" ;;
  confidence_score <- getitem evidence "confidence_score" ;;
  features <- getitem evidence "features_used" ;;
  let xai_method := dict_get evidence "xai_method" (VStr "Unknown") in
  sorted_features <- sorted_features_of features ;;
  let title := title_of audience in
  let summary_section :=
    summary_section_of audience currency old_price new_price
      from_date to_date model_version in
  increase <- py_gt new_price old_price ;;
  lines <- mapM (feature_line audience) sorted_features ;;
  let attribution_section :=
    attribution_intro audience increase ++ String.concat EmptyString lines in
  label <- get_confidence_label confidence_score ;;
  let confidence_section :=
    confidence_section_of audience label confidence_score model_version
      xai_method in
  let disclaimer_section := disclaimer_section_of audience in
  Ok (assemble title summary_section attribution_section confidence_section
        disclaimer_section).

(** [generate_explanations]: the outcome, and the audit log after the
    call. *)
Definition generate_explanations (evidence : dict) (log : list event)
  : res dict * list event :=
  let (valid, log) := validate_evidence evidence log in
  if negb valid then (Ok refusal_payload, log)
  else
    let outcome :=
      raw_customer <- format_explanation evidence "customer" ;;
      raw_regulator <- format_explanation evidence "regulator" ;;
      flags <- getitem evidence "safety_flags" ;;
      match flags with
      | VDict flags =>
          let safe_customer := safety_filter raw_customer flags in
          let safe_regulator := safety_filter raw_regulator flags in
          event_id <- getitem evidence "event_id" ;;
          Ok [ ("customer_text", VStr safe_customer);
               ("regulator_text", VStr safe_regulator);
               ("evidence_used", event_id) ]
      | _ => Raise AttributeError
      end in
    match outcome with
    | Ok result => (Ok result, log_event log "TEXT_GENERATED" (VDict result))
    | Raise e => (Raise e, log)
    end.
End Rendering.

(** ** [AttributionEngine] *)

(** A state of the pricing model, as [PricingModel.get_state] builds it. *)
Record State : Type := {
  price : number;
  inputs : list (string * number)
}.

(** An entry of [features_used], as [analyze_change] builds it; [shap_raw] is
    present in the entries of the explainer path only. *)
Record Feature : Type := {
  name : string;
  value_change_pct : Q;
  attribution : Q;
  shap_raw : option Q;
  data_source : string
}.

(** [f["attribution"] = a]. *)
Definition set_attribution (f : Feature) (a : Q) : Feature :=
  {| name := name f;
     value_change_pct := value_change_pct f;
     attribution := a;
     shap_raw := shap_raw f;
     data_source := data_source f |}.

(** The feature as the dict it is. *)
Definition feature_value (f : Feature) : value :=
  VDict ([ ("name", VStr (name f));
           ("value_change_pct", VNum (Float (value_change_pct f)));
           ("attribution", VNum (Float (attribution f))) ]
         ++ match shap_raw f with
            | Some raw => [("shap_raw", VNum (Float raw))]
            | None => []
            end
         ++ [ ("data_source", VStr (data_source f)) ])%list.

(** The SHAP explainer: from the row of the data frame (the new inputs under
    the model's feature names, a missing one left empty) to the SHAP values
    of that row; the call may raise. *)
Definition Explainer : Type := list (option number) -> res (list Q).

(** The attributes of an engine that [analyze_change] reads or writes. *)
Record AttributionEngine : Type := {
  previous_state : option State;
  explainer : option Explainer;
  feature_names : list string
}.

Definition data_sources : list (string * string) :=
  [ ("raw_material_cost", "supplier_invoices");
    ("demand_index", "sales_forecast_model");
    ("inventory_level", "warehouse_system");
    ("competitor_price_avg", "market_scraper") ].

(** [self.data_sources.get(name, "unknown")]. *)
Definition data_source_of (name : string) : string :=
  match lookup name data_sources with
  | Some source => source
  | None => "unknown"
  end.

(** [self.previous_state = current_state]. *)
Definition set_previous_state (self : AttributionEngine) (current_state : State)
  : AttributionEngine :=
  {| previous_state := Some current_state;
     explainer := explainer self;
     feature_names := feature_names self |}.

(** What the call reads from outside: a fresh UUID and the clock, already
    formatted. *)
Record Ambient : Type := {
  uuid4 : string;
  utcnow_stamp : string;
  utcnow_date : string;
  week_before_date : string
}.

(** [normalize_attributions]. *)
Definition normalize_attributions (features : list Feature) : list Feature :=
  match features with
  | [] => features
  | _ :: _ =>
      let total := py_sum (map (fun f => Qabs (attribution f)) features) in
      if Qeq_bool total 0 then features
      else
        let features :=
          map (fun f => set_attribution f (py_round (attribution f / total) 2))
            features in
        let current_sum := py_sum (map attribution features) in
        let diff := py_round (1 - current_sum) 2 in
        if negb (Qeq_bool diff 0)
        then
          match features with
          | first :: rest =>
              set_attribution first (py_round (attribution first + diff) 2)
              :: rest
          | [] => features
          end
        else features
  end.

(** The percentage change of an input, guarded against a zero old value. *)
Definition pct_change_of (old_val new_val : number) : Q :=
  if negb (Qeq_bool (number_Q old_val) 0)
  then ((number_Q new_val - number_Q old_val) / number_Q old_val) * 100
  else 0.

(** [x > 0.001] on floats. *)
Definition significant (x : Q) : bool := negb (Qle_bool x (1 # 1000)).

(** The loop of the explainer path, over [enumerate(self.feature_names)]. *)
Fixpoint shap_features
  (names : list string) (i : nat) (sv : list Q)
  (old_inputs new_inputs : list (string * number))
  (features_used : list Feature) : res (list Feature) :=
  match names with
  | [] => Ok features_used
  | name :: names' =>
      let raw_val :=
        match lookup name new_inputs with Some v => v | None => Int 0 end in
      let old_val :=
        match lookup name old_inputs with Some v => v | None => Int 0 end in
      let pct_change := pct_change_of old_val raw_val in
      match nth_error sv i with
      | None => Raise IndexError
      | Some shap_val =>
          shap_features names' (S i) sv old_inputs new_inputs
            (if significant (Qabs shap_val)
             then features_used ++
                  [ {| name := name;
                       value_change_pct := py_round pct_change 1;
                       attribution := Qabs shap_val;
                       shap_raw := Some shap_val;
                       data_source := data_source_of name |} ]
             else features_used)%list
      end
  end.

(** [d[key]] on the inputs of a state. *)
Definition input_of (d : list (string * number)) (key : string) : res number :=
  match lookup key d with
  | Some v => Ok v
  | None => Raise KeyError
  end.

(** The loop of the fallback path, over the keys of the old inputs. *)
Fixpoint fallback_features
  (keys : list string) (old_inputs new_inputs : list (string * number))
  (features_used : list Feature) : res (list Feature) :=
  match keys with
  | [] => Ok features_used
  | key :: keys' =>
      old_val <- input_of old_inputs key ;;
      new_val <- input_of new_inputs key ;;
      let pct_change := pct_change_of old_val new_val in
      let raw_score := Qabs pct_change in
      fallback_features keys' old_inputs new_inputs
        (if significant raw_score
         then features_used ++
              [ {| name := key;
                   value_change_pct := py_round pct_change 1;
                   attribution := raw_score;
                   shap_raw := None;
                   data_source := data_source_of key |} ]
         else features_used)%list
  end.

(** The attribution computation of [analyze_change]: the features of the
    explainer path or of the fallback path, before normalization. *)
Definition compute_features (self : AttributionEngine) (old_state new_state : State)
  : res (list Feature) :=
  let new_inputs := inputs new_state in
  let old_inputs := inputs old_state in
  match explainer self with
  | Some explain =>
      let X := map (fun name => lookup name new_inputs) (feature_names self) in
      sv <- explain X ;;
      shap_features (feature_names self) 0 sv old_inputs new_inputs []
  | None =>
      fallback_features (map fst old_inputs) old_inputs new_inputs []
  end.

(** The evidence record of the data contract. *)
Definition evidence_object
  (env : Ambient) (old_price new_price : number) (features_used : list Feature)
  : dict :=
  [ ("event_id", VStr (uuid4 env));
    ("product_id", VStr "SKU-123");
    ("old_price", VNum old_price);
    ("new_price", VNum new_price);
    ("currency", VStr "INR");
    ("event_time", VStr (utcnow_stamp env));
    ("model_version", VStr "pricing_xgboost_v1");
    ("xai_method", VStr "SHAP");
    ("time_window", VDict [ ("from", VStr (week_before_date env));
                            ("to", VStr (utcnow_date env)) ]);
    ("features_used", VList (map feature_value features_used));
    ("confidence_score", VNum (Float (92 # 100)));
    ("safety_flags", VDict [ ("hide_exact_costs", VBool true);
                             ("hide_supplier_names", VBool true) ]) ].

(** [abs(new_price - old_price) < 0.01]: between two ints the difference is
    an int, compared with the double 0.01 as it is; otherwise the difference
    is taken in double arithmetic, an int operand being converted first. *)
Definition insignificant_change (old_price new_price : number) : res bool :=
  match new_price, old_price with
  | Int new, Int old =>
      Ok (Double.int_ltb (Z.abs (new - old)) (Double.nearest (1 # 100)))
  | _, _ =>
      new <- float_of new_price ;;
      old <- float_of old_price ;;
      Ok (Double.ltb (Double.abs (Double.sub new old)) (Double.nearest (1 # 100)))
  end.

(** The strict validation rule on the normalized features. *)
Definition attribution_sum_rejected (features_used : list Feature) : bool :=
  let total_attribution := py_sum (map attribution features_used) in
  negb (Qle_bool (Qabs (total_attribution - 1)) (1 # 1000))
  && Nat.ltb 0 (List.length features_used).

(** [analyze_change]: the outcome ([None] or an evidence record, unless the
    call raises), the engine after the call and the audit log after it. *)
Definition analyze_change
  (env : Ambient) (self : AttributionEngine) (current_state : State)
  (log : list event)
  : res (option dict) * AttributionEngine * list event :=
  match previous_state self with
  | None => (Ok None, set_previous_state self current_state, log)
  | Some previous =>
      let old_price := price previous in
      let new_price := price current_state in
      match insignificant_change old_price new_price with
      | Raise e => (Raise e, self, log)
      | Ok true => (Ok None, self, log)
      | Ok false =>
        match compute_features self previous current_state with
        | Raise e => (Raise e, self, log)
        | Ok features_used =>
            let features_used := normalize_attributions features_used in
            if attribution_sum_rejected features_used
            then
              let total_attribution := py_sum (map attribution features_used) in
              (Ok None,
               set_previous_state self current_state,
               log_event log "ATTRIBUTION_VALIDATION_FAILED"
                 (VDict [ ("total", VNum (Float total_attribution));
                          ("features",
                           VList (map feature_value features_used)) ]))
            else
              let evidence := evidence_object env old_price new_price
                                features_used in
              (Ok (Some evidence),
               set_previous_state self current_state,
               log_event log "EVIDENCE_GENERATED" (VDict evidence))
        end
      end
  end.

(** ** [PricingModel] *)

(** [int(q)] for a float [q]: truncation toward zero. *)
Definition py_int (q : Q) : Z := Z.quot (Qnum q) (Zpos (Qden q)).

(** [d[key] = v]: the value of an existing key is replaced where it stands,
    a new key goes to the end. *)
Fixpoint assign {V : Type} (key : string) (v : V) (d : list (string * V))
  : list (string * V) :=
  match d with
  | [] => [(key, v)]
  | (k, w) :: d' =>
      if String.eqb k key then (k, v) :: d' else (k, w) :: assign key v d'
  end.

(** [d[key] *= c] for a float [c]. *)
Definition scale (key : string) (c : Q) (d : list (string * number))
  : res (list (string * number)) :=
  old <- input_of d key ;;
  Ok (assign key (Float (number_Q old * c)) d).

(** What [random.choice] draws in [simulate_market_update]. *)
Inductive ChangeType : Type :=
| cost_hike
| demand_surge
| inventory_drop
| competitor_move
| mixed.

(** The XGBoost regressor: from the row of the data frame to its
    prediction; the call may raise. *)
Definition Predictor : Type := list (option number) -> res Q.

Module Pricing.

(** The attributes of a [PricingModel]; [model] is there when the model
    files were found ([self.loaded]). *)
Record PricingModel : Type := {
  model : option Predictor;
  feature_names : list string;
  current_inputs : list (string * number);
  current_price : number
}.

Definition initial_inputs : list (string * number) :=
  [ ("raw_material_cost", Float 400);
    ("demand_index", Float 100);
    ("inventory_level", Int 5000);
    ("competitor_price_avg", Float 1050) ].

Definition default_feature_names : list string :=
  [ "raw_material_cost"; "demand_index"; "inventory_level";
    "competitor_price_avg" ].

(** [_predict_price], from the attributes it reads. *)
Definition predict_price
  (model : option Predictor) (feature_names : list string)
  (inputs : list (string * number)) : res number :=
  match model with
  | None => Ok (Float 1000)
  | Some predict =>
      prediction <- predict (map (fun name => lookup name inputs) feature_names) ;;
      Ok (Float (py_round prediction 2))
  end.

(** The inputs as the dict that is logged. *)
Definition inputs_value (inputs : list (string * number)) : value :=
  VDict (map (fun kv => (fst kv, VNum (snd kv))) inputs).

(** [PricingModel()]: [files] is what the model files hold, when they
    exist. *)
Definition init (files : option (Predictor * list string)) (log : list event)
  : res (PricingModel * list event) :=
  let model := option_map fst files in
  let feature_names :=
    match files with
    | Some (_, names) => names
    | None => default_feature_names
    end in
  current_price <- predict_price model feature_names initial_inputs ;;
  Ok ({| model := model;
         feature_names := feature_names;
         current_inputs := initial_inputs;
         current_price := current_price |},
      log_event log "MODEL_INITIALIZED"
        (VDict [ ("initial_price", VNum current_price);
                 ("initial_inputs", inputs_value initial_inputs);
                 ("model_type",
                  VStr (match model with
                        | Some _ => "XGBoost"
                        | None => "Fallback"
                        end)) ])).

(** [get_state]. *)
Definition get_state (self : PricingModel) : State :=
  {| price := current_price self; inputs := current_inputs self |}.

(** The inputs after the fluctuation drawn. *)
Definition fluctuate (change_type : ChangeType)
  (new_inputs : list (string * number)) : res (list (string * number)) :=
  match change_type with
  | cost_hike => scale "raw_material_cost" (1062 # 1000) new_inputs
  | demand_surge => scale "demand_index" (1098 # 1000) new_inputs
  | inventory_drop =>
      level <- input_of new_inputs "inventory_level" ;;
      Ok (assign "inventory_level"
            (Int (py_int (number_Q level * (879 # 1000)))) new_inputs)
  | competitor_move => scale "competitor_price_avg" (1031 # 1000) new_inputs
  | mixed =>
      new_inputs <- scale "raw_material_cost" (102 # 100) new_inputs ;;
      scale "competitor_price_avg" (98 # 100) new_inputs
  end.

(** [simulate_market_update]: the state returned and the model after the
    call. *)
Definition simulate_market_update
  (self : PricingModel) (change_type : ChangeType)
  : res (State * PricingModel) :=
  new_inputs <- fluctuate change_type (current_inputs self) ;;
  new_price <- predict_price (model self) (feature_names self) new_inputs ;;
  let self' := {| model := model self;
                  feature_names := feature_names self;
                  current_inputs := new_inputs;
                  current_price := new_price |} in
  Ok (get_state self', self').

End Pricing.

(** ** The loop of [main.py] *)

(** [AttributionEngine()]: [shap] is the explainer and the feature names
    read from the model files, when they exist and load. *)
Definition new_engine (shap : option (Explainer * list string))
  : AttributionEngine :=
  {| previous_state := None;
     explainer := option_map fst shap;
     feature_names := match shap with
                      | Some (_, names) => names
                      | None => []
                      end |}.

(** What one pass of the loop draws from outside: the fluctuation, and the
    clock and UUID of the call of [analyze_change]. *)
Record Draw : Type := {
  change_type : ChangeType;
  ambient : Ambient
}.

(** The components of the bot. *)
Record Bot : Type := {
  pricing_model : Pricing.PricingModel;
  attribution_engine : AttributionEngine
}.

(** What the loop reads from an evidence record to print it. *)
Definition shown (evidence : dict) : res (list value) :=
  _ <- getitem evidence "old_price" ;;
  _ <- getitem evidence "new_price" ;;
  _ <- getitem evidence "currency" ;;
  features <- getitem evidence "features_used" ;;
  features <- iterate features ;;
  mapM (fun f => subscript f "name") features.

Section MainLoop.
Variable format_value : value -> string.
Variable str_title : string -> string.

(** One pass of the loop body: the bot after it, with the outputs of the
    explainer when an evidence record was produced, and the audit log after
    it (the log is a file: it keeps what was written before an
    exception).  Printing and sleeping are left out; the reads that the
    printing makes are kept, since they may raise. *)
Definition cycle (bot : Bot) (draw : Draw) (log : list event)
  : res (Bot * option dict) * list event :=
  match Pricing.simulate_market_update (pricing_model bot) (change_type draw) with
  | Raise e => (Raise e, log)
  | Ok (current_state, model) =>
      let '(outcome, engine, log) :=
        analyze_change (ambient draw) (attribution_engine bot) current_state
          log in
      let bot := {| pricing_model := model; attribution_engine := engine |} in
      match outcome with
      | Raise e => (Raise e, log)
      | Ok None => (Ok (bot, None), log)
      | Ok (Some evidence) =>
          if truthy (VDict evidence)
          then
            match shown evidence with
            | Raise e => (Raise e, log)
            | Ok _ =>
                let (outputs, log) :=
                  generate_explanations format_value str_title evidence log in
                (outputs <- outputs ;;
                 _ <- getitem outputs "customer_text" ;;
                 _ <- getitem outputs "regulator_text" ;;
                 Ok (bot, Some outputs),
                 log)
            end
          else (Ok (bot, None), log)
      end
  end.

(** The passes of the loop, one for each draw, collecting the outputs. *)
Fixpoint cycles (bot : Bot) (draws : list Draw) (log : list event)
  : res (Bot * list (option dict)) * list event :=
  match draws with
  | [] => (Ok (bot, []), log)
  | draw :: draws' =>
      match cycle bot draw log with
      | (Raise e, log) => (Raise e, log)
      | (Ok (bot, outputs), log) =>
          match cycles bot draws' log with
          | (Raise e, log) => (Raise e, log)
          | (Ok (bot, more), log) => (Ok (bot, outputs :: more), log)
          end
      end
  end.

(** [main]: the components are built, the engine is given the starting
    state, and the loop runs until its fifth pass.  [draws 0] is what the
    first call of [analyze_change] draws, [draws i] what pass [i] does. *)
Definition main
  (files : option (Predictor * list string))
  (shap : option (Explainer * list string))
  (draws : nat -> Draw) (log : list event)
  : res (Bot * list (option dict)) * list event :=
  match Pricing.init files log with
  | Raise e => (Raise e, log)
  | Ok (model, log) =>
      let '(outcome, engine, log) :=
        analyze_change (ambient (draws 0%nat)) (new_engine shap)
          (Pricing.get_state model) log in
      match outcome with
      | Raise e => (Raise e, log)
      | Ok _ =>
          cycles {| pricing_model := model; attribution_engine := engine |}
            (map draws (seq 1 5)) log
      end
  end.
End MainLoop.

(** ** Well-formed evidence

    The shape of an evidence record that the renderer reads without raising:
    the fields it subscripts are there and have the types of the data
    contract. *)

(** A number (or a bool, which Python counts as one). *)
Definition numeric (v : value) : Prop := exists q, as_number v = Ok q.

Definition well_formed_feature (f : value) : Prop :=
  exists (d : dict) (a c : value) (n : string),
    f = VDict d /\
    lookup "attribution" d = Some a /\ numeric a /\
    lookup "value_change_pct" d = Some c /\ numeric c /\
    lookup "name" d = Some (VStr n).

Definition well_formed_evidence (evidence : dict) : Prop :=
  (exists p, lookup "old_price" evidence = Some p /\ numeric p) /\
  (exists p, lookup "new_price" evidence = Some p /\ numeric p) /\
  (exists c, lookup "currency" evidence = Some c) /\
  (exists w from_date to_date,
     lookup "time_window" evidence = Some (VDict w) /\
     lookup "from" w = Some from_date /\ lookup "to" w = Some to_date) /\
  (exists m, lookup "model_version" evidence = Some m) /\
  (exists c, lookup "confidence_score" evidence = Some c /\ numeric c) /\
  (exists fs, lookup "features_used" evidence = Some (VList fs) /\
              Forall well_formed_feature fs) /\
  (exists flags, lookup "safety_flags" evidence = Some (VDict flags)) /\
  (exists id, lookup "event_id" evidence = Some id).

(** The attribution computation of a call is defined: in fallback mode every
    key of the old inputs is a key of the new inputs; in explainer mode the
    explainer returns, with a SHAP value for every feature name. *)
Definition attribution_defined
  (self : AttributionEngine) (previous current_state : State) : Prop :=
  match explainer self with
  | None =>
      forall key, In key (map fst (inputs previous)) ->
                  has_key key (inputs current_state) = true
  | Some explain =>
      exists sv,
        explain (map (fun name => lookup name (inputs current_state))
                   (feature_names self)) = Ok sv /\
        List.length (feature_names self) <= List.length sv
  end.

(** ** Predicates of the statements *)

(** Two replacements in a row, each putting [mark] after the occurrences of
    a pattern: first of [first], then of [second]. *)
Definition mark_both {A : Type} (eqb : A -> A -> bool)
  (first second mark s : list A) : list A :=
  replace eqb (replace eqb s first (first ++ mark)%list)
    second (second ++ mark)%list.

(** The two replacements of [safety_filter], on the characters of the text. *)
Definition redact (s : list ascii) : list ascii :=
  mark_both Ascii.eqb (chars "₹") (chars "INR") (chars "~") s.


(** A value with two decimal digits: a whole number of hundredths. *)
Definition two_decimals (v : Q) : Prop := exists k : Z, (v == k # 100)%Q.

(** The hundredths that the rounding pass of [normalize_attributions] gives
    each feature. *)
Definition rounded_shares (total : Q) (features : list Feature) : list Z :=
  map (fun f => round_half_even (attribution f / total * inject_Z 100)%Q) features.

Section Order.
Context {A : Type}.

(** [y] does not come after [x]: its key is at least the key of [x]. *)
Definition key_ge (x y : Q * A) : Prop := (fst y <= fst x)%Q.

(** The elements whose key equals [k]. *)
Definition with_key (k : Q) (l : list (Q * A)) : list (Q * A) :=
  filter (fun x => Qeq_bool (fst x) k) l.

End Order.

(** [k] is the absolute value of the attribution of the feature [x]: [x] is
    a dict whose ["attribution"] is a number (or a bool, which counts as 1 or
    0) of absolute value [k]. *)
Definition magnitude (x : value) (k : Q) : Prop :=
  exists (d : dict) (a : value),
    x = VDict d /\
    lookup "attribution" d = Some a /\
    match a with
    | VNum n => k = Qabs (number_Q n)
    | VBool b => k = if b then 1%Q else 0%Q
    | _ => False
    end.

(** [sorted] lists [items] by the absolute value of their attribution,
    greatest first, the elements of equal absolute attribution in the order
    they have in [items]: [keyed] pairs each item with that value. *)
Definition sorted_by_attribution (items sorted : list value) : Prop :=
  exists keyed : list (Q * value),
    map snd keyed = items /\
    Forall (fun kx => magnitude (snd kx) (fst kx)) keyed /\
    exists keyed' : list (Q * value),
      map snd keyed' = sorted /\
      Permutation keyed' keyed /\
      StronglySorted (@key_ge value) keyed' /\
      forall k : Q, with_key k keyed' = with_key k keyed.

(** What a call that went into the attribution computation returns, given
    the features computed. *)
Definition concluded
  (env : Ambient) (self : AttributionEngine) (previous current_state : State)
  (log : list event) (features : list Feature)
  (result : res (option dict) * AttributionEngine * list event) : Prop :=
  let features_used := normalize_attributions features in
  let total := py_sum (map attribution features_used) in
  result =
    (Ok (Some (evidence_object env (price previous) (price current_state)
                 features_used)),
     set_previous_state self current_state,
     log_event log "EVIDENCE_GENERATED"
       (VDict (evidence_object env (price previous) (price current_state)
                 features_used)))
  \/
  result =
    (Ok None,
     set_previous_state self current_state,
     log_event log "ATTRIBUTION_VALIDATION_FAILED"
       (VDict [ ("total", VNum (Float total));
                ("features", VList (map feature_value features_used)) ])).

(** ** Further predicates of the statements *)

(** Every occurrence of the block [p] in [s] is followed by [m]. *)
Definition occurrences_marked {A : Type} (p m s : list A) : Prop :=
  forall before after : list A,
    s = (before ++ p ++ after)%list -> exists rest, after = (m ++ rest)%list.

(** What the fallback path says of a feature: it is named after a key of
    both inputs whose old value is not zero and whose value has changed, it
    has no [shap_raw], and its data source is the one on record for its
    name. *)
Definition from_changed_input
  (old_inputs new_inputs : list (string * number)) (f : Feature) : Prop :=
  exists old_val new_val,
    lookup (name f) old_inputs = Some old_val /\
    lookup (name f) new_inputs = Some new_val /\
    ~ (number_Q old_val == 0)%Q /\
    ~ (number_Q new_val == number_Q old_val)%Q /\
    shap_raw f = None /\
    data_source f = data_source_of (name f).

(** What the explainer path says of a feature: it is named after the
    feature name at some index, and its raw score is the magnitude of the
    SHAP value at that index, which exceeds 0.001. *)
Definition from_shap_value
  (names : list string) (sv : list Q) (f : Feature) : Prop :=
  exists (i : nat) (shap_val : Q),
    nth_error names i = Some (name f) /\
    nth_error sv i = Some shap_val /\
    (1 # 1000 < Qabs shap_val)%Q /\
    attribution f = Qabs shap_val /\
    shap_raw f = Some shap_val.

(** The inputs a fluctuation writes. *)
Definition touched (change_type : ChangeType) : list string :=
  match change_type with
  | cost_hike => ["raw_material_cost"]
  | demand_surge => ["demand_index"]
  | inventory_drop => ["inventory_level"]
  | competitor_move => ["competitor_price_avg"]
  | mixed => ["raw_material_cost"; "competitor_price_avg"]
  end.

(** The regressor read from the model files, when there is one, predicts a
    price for every row. *)
Definition predictor_returns (files : option (Predictor * list string))
  : Prop :=
  match files with
  | Some (predict, _) => forall row, exists q, predict row = Ok q
  | None => True
  end.

(** The explainer read from the model files, when there is one, returns for
    every row, with a SHAP value for every feature name. *)
Definition explainer_returns (shap : option (Explainer * list string))
  : Prop :=
  match shap with
  | Some (explain, names) =>
      forall X, exists sv,
        explain X = Ok sv /\ List.length names <= List.length sv
  | None => True
  end.

(** What the loop of [main] keeps true of the bot: the components are those
    built from the model files, the model and the baseline hold the four
    inputs, and the price of the baseline is a float. *)
Definition kept
  (files : option (Predictor * list string))
  (shap : option (Explainer * list string)) (bot : Bot) : Prop :=
  Pricing.model (pricing_model bot) = option_map fst files /\
  map fst (Pricing.current_inputs (pricing_model bot))
  = Pricing.default_feature_names /\
  explainer (attribution_engine bot) = option_map fst shap /\
  feature_names (attribution_engine bot)
  = match shap with Some (_, names) => names | None => [] end /\
  exists baseline,
    previous_state (attribution_engine bot) = Some baseline /\
    map fst (inputs baseline) = Pricing.default_feature_names /\
    exists q, price baseline = Float q.

(** The texts among the events of an audit log. *)
Definition texts_logged (events : list event) : list value :=
  map snd (filter (fun e => fst e =? "TEXT_GENERATED") events).

(** The outputs among the results of the passes of the loop. *)
Definition texts_returned (outputs : list (option dict)) : list value :=
  flat_map (fun o => match o with Some d => [VDict d] | None => [] end) outputs.

(** ** Example data

    The scenarios of [manual_test.py], and stand-ins for what is left open, at
    which the closed examples below are evaluated. *)

Definition plain_format (v : value) : string :=
  match v with
  | VStr s => s
  | _ => "?"
  end.

Definition plain_title (s : string) : string := s.

Definition env_1 : Ambient :=
  {| uuid4 := "3f2b8c1e-0000-4000-8000-000000000001";
     utcnow_stamp := "2024-01-08T00:00:00Z";
     utcnow_date := "2024-01-08";
     week_before_date := "2024-01-01" |}.

(** A fresh engine in fallback mode (the model files were not found). *)
Definition fallback_engine : AttributionEngine :=
  {| previous_state := None; explainer := None; feature_names := [] |}.

Definition old_state_1 : State :=
  {| price := Int 1000;
     inputs := [("raw_material_cost", Int 100); ("demand", Int 50)] |}.

Definition new_state_1 : State :=
  {| price := Int 1200;
     inputs := [("raw_material_cost", Int 150); ("demand", Int 50)] |}.

(** The price of [old_state_1] moved by 0.005, and a new input. *)
Definition drifted_state_1 : State :=
  {| price := Float (200001 # 200);
     inputs := [("raw_material_cost", Int 100); ("demand", Int 50);
                ("inventory_level", Int 7)] |}.

(** A new state that lacks an input of [old_state_1]. *)
Definition partial_state_1 : State :=
  {| price := Int 1200;
     inputs := [("raw_material_cost", Int 150)] |}.

(** A new state that has an input [old_state_1] has not. *)
Definition widened_state_1 : State :=
  {| price := Int 1200;
     inputs := [("raw_material_cost", Int 150); ("demand", Int 50);
                ("inventory_level", Int 7)] |}.







(** Two inputs that change by the same magnitude, one up and one down. *)
Definition old_state_2 : State :=
  {| price := Int 1000;
     inputs := [("raw_material_cost", Int 100); ("demand_index", Int 50)] |}.

Definition new_state_2 : State :=
  {| price := Int 1100;
     inputs := [("raw_material_cost", Int 110); ("demand_index", Int 45)] |}.

(** The engine after its first call, on [old_state_1]. *)
Definition engine_1 : AttributionEngine :=
  set_previous_state fallback_engine old_state_1.


(** The evidence of the tamper test of [manual_test.py], with another
    method tag in place of the missing one. *)
Definition tampered_evidence : dict :=
  [ ("old_price", VNum (Int 100));
    ("new_price", VNum (Int 110));
    ("currency", VStr "INR");
    ("model_version", VStr "v1");
    ("time_window", VDict [ ("from", VStr "2024-01-01");
                            ("to", VStr "2024-01-02") ]);
    ("features_used",
     VList [ VDict [ ("name", VStr "cost");
                     ("attribution", VNum (Float 1));
                     ("value_change_pct", VNum (Int 10)) ] ]);
    ("confidence_score", VNum (Float (9 # 10)));
    ("safety_flags", VDict []);
    ("xai_method", VStr "LIME") ].

(** The same evidence with the accepted method tag: every required field is
    there, and no [event_id]. *)
Definition evidence_without_id : dict :=
  [ ("old_price", VNum (Int 100));
    ("new_price", VNum (Int 110));
    ("currency", VStr "INR");
    ("model_version", VStr "v1");
    ("time_window", VDict [ ("from", VStr "2024-01-01");
                            ("to", VStr "2024-01-02") ]);
    ("features_used",
     VList [ VDict [ ("name", VStr "cost");
                     ("attribution", VNum (Float 1));
                     ("value_change_pct", VNum (Int 10)) ] ]);
    ("confidence_score", VNum (Float (9 # 10)));
    ("safety_flags", VDict []);
    ("xai_method", VStr "SHAP") ].

(** The evidence of the tamper test as it is there: no [xai_method]. *)
Definition evidence_without_method : dict :=
  [ ("old_price", VNum (Int 100));
    ("new_price", VNum (Int 110));
    ("currency", VStr "INR");
    ("model_version", VStr "v1");
    ("time_window", VDict [ ("from", VStr "2024-01-01");
                            ("to", VStr "2024-01-02") ]);
    ("features_used",
     VList [ VDict [ ("name", VStr "cost");
                     ("attribution", VNum (Float 1));
                     ("value_change_pct", VNum (Int 10)) ] ]);
    ("confidence_score", VNum (Float (9 # 10)));
    ("safety_flags", VDict []) ].

(** Three features: the one of greatest absolute attribution is negative and
    stands in the middle; the other two have equal absolute attribution and
    opposite signs. *)
Definition feature_dict (name : string) (attribution change : Q) : value :=
  VDict [ ("name", VStr name);
          ("value_change_pct", VNum (Float change));
          ("attribution", VNum (Float attribution)) ].

Definition tied_evidence : dict :=
  [ ("event_id", VStr "3f2b8c1e-0000-4000-8000-000000000002");
    ("old_price", VNum (Int 100));
    ("new_price", VNum (Int 110));
    ("currency", VStr "INR");
    ("model_version", VStr "v1");
    ("xai_method", VStr "SHAP");
    ("time_window", VDict [ ("from", VStr "2024-01-01");
                            ("to", VStr "2024-01-02") ]);
    ("features_used",
     VList [ feature_dict "demand_index" (10 # 100) 3;
             feature_dict "inventory_level" (- 90 # 100) (- 4);
             feature_dict "raw_material_cost" (- 10 # 100) 10 ]);
    ("confidence_score", VNum (Float (9 # 10)));
    ("safety_flags", VDict [ ("hide_exact_costs", VBool true) ]) ].

(** An engine in explainer mode, whose explainer gives every row the same
    two SHAP values. *)
Definition constant_explainer : Explainer :=
  fun _ => Ok [3 # 2; - (1 # 2)]%Q.

Definition shap_engine : AttributionEngine :=
  {| previous_state := Some old_state_2;
     explainer := Some constant_explainer;
     feature_names := ["raw_material_cost"; "demand_index"] |}.

(** The same engine with a third feature name, for which the explainer
    gives no value. *)
Definition short_engine : AttributionEngine :=
  {| previous_state := Some old_state_2;
     explainer := Some constant_explainer;
     feature_names := ["raw_material_cost"; "demand_index";
                       "inventory_level"] |}.

(** A regressor that prices a row at twice its first column. *)
Definition doubling_predictor : Predictor :=
  fun row =>
    Ok match row with
       | Some cost :: _ => (number_Q cost * 2)%Q
       | _ => 0%Q
       end.

(** The draws of a run: a cost hike on every pass. *)
Definition draws_1 (iteration : nat) : Draw :=
  {| change_type := cost_hike; ambient := env_1 |}.

(* ================================================================== *)
(** * Part II: properties *)
(* ================================================================== *)

(** ** [str.replace] with a replacement that extends the pattern *)

Module PyStrFacts.

Local Open Scope list_scope.

Section Sequences.
Context {A : Type}.
Variable eqb : A -> A -> bool.
Hypothesis eqb_spec : forall a b, reflect (a = b) (eqb a b).

Local Abbreviation startswith := (startswith eqb).
Local Abbreviation contains := (contains eqb).
Local Abbreviation replace_from := (replace_from eqb).
Local Abbreviation replace := (replace eqb).

Lemma eqb_refl a : eqb a a = true.
Proof. destruct (eqb_spec a a); congruence. Qed.

Lemma startswith_app p s : startswith (p ++ s) p = true.
Proof.
  induction p as [|a p IH]; simpl; [reflexivity|].
  now rewrite eqb_refl, IH.
Qed.

(** A match splits the input into the pattern and what follows it. *)
Lemma startswith_split s p :
  startswith s p = true -> s = p ++ skipn (List.length p) s.
Proof.
  revert s; induction p as [|a p IH]; intros [|c s]; simpl; try easy.
  intros H. apply andb_true_iff in H as [Hac Hp].
  destruct (eqb_spec a c); [subst|discriminate].
  f_equal. now apply IH.
Qed.

Lemma replace_from_skip old new k s :
  replace_from old new k s = replace_from old new 0 (skipn k s).
Proof.
  revert k; induction s as [|c s IH]; intros [|k]; simpl; try reflexivity.
  apply IH.
Qed.

(** The unfolding equations of the scan. *)
Lemma replace_hit old new s :
  old <> [] -> startswith s old = true ->
  replace s old new = new ++ replace (skipn (List.length old) s) old new.
Proof.
  intros Hne Hs. destruct old as [|o old]; [congruence|].
  destruct s as [|c s]; [discriminate|].
  unfold PyStr.replace. cbn [PyStr.replace_from]. rewrite Hs.
  rewrite replace_from_skip. cbn [List.length skipn Nat.sub].
  rewrite ?Nat.sub_0_r. reflexivity.
Qed.

Lemma replace_miss old new c s :
  old <> [] -> startswith (c :: s) old = false ->
  replace (c :: s) old new = c :: replace s old new.
Proof.
  intros Hne Hs. destruct old as [|o old]; [congruence|].
  unfold PyStr.replace. cbn [PyStr.replace_from]. now rewrite Hs.
Qed.

Lemma replace_nil old new : old <> [] -> replace [] old new = [].
Proof. destruct old; [congruence|reflexivity]. Qed.

(** Induction along the scan: at a match the scan resumes after it. *)
Lemma replace_scan_ind (old : list A) (P : list A -> Prop) :
  old <> [] ->
  P [] ->
  (forall s, startswith s old = true ->
             P (skipn (List.length old) s) -> P s) ->
  (forall c s, startswith (c :: s) old = false -> P s -> P (c :: s)) ->
  forall s, P s.
Proof.
  intros Hne Hnil Hhit Hmiss s.
  remember (List.length s) as n eqn:Hn.
  revert s Hn. induction n as [n IH] using lt_wf_ind. intros s Hn.
  destruct s as [|c s]; [exact Hnil|].
  destruct (startswith (c :: s) old) eqn:Hs.
  - apply Hhit; [exact Hs|].
    destruct old as [|o old]; [congruence|].
    eapply IH; [|reflexivity]. subst n. cbn [List.length skipn].
    rewrite length_skipn. simpl. lia.
  - apply Hmiss; [exact Hs|]. eapply IH; [|reflexivity]. subst n. simpl. lia.
Qed.

Lemma contains_cons_miss c s p :
  startswith (c :: s) p = false -> contains (c :: s) p = contains s p.
Proof. intros H. cbn [PyStr.contains]. now rewrite H. Qed.

Lemma contains_hit s p : startswith s p = true -> contains s p = true.
Proof. intros H. destruct s; cbn [PyStr.contains]; now rewrite H. Qed.

Lemma contains_app_r u s p : contains s p = true -> contains (u ++ s) p = true.
Proof.
  intros H. induction u as [|c u IH]; [exact H|].
  cbn [app PyStr.contains]. rewrite IH. apply orb_true_r.
Qed.

(** Where the pattern does not occur, nothing is replaced. *)
Lemma replace_absent old new s :
  old <> [] -> contains s old = false -> replace s old new = s.
Proof.
  intros Hne. induction s as [|c s IH]; intros H.
  - now apply replace_nil.
  - cbn [PyStr.contains] in H. apply orb_false_iff in H as [H1 H2].
    rewrite replace_miss by assumption. f_equal. now apply IH.
Qed.

Section Extending.
Variables old ext : list A.
Hypothesis old_nonempty : old <> [].

Lemma replace_ext_length_le s :
  List.length s <= List.length (replace s old (old ++ ext)).
Proof.
  pattern s; revert s; apply (@replace_scan_ind old _ old_nonempty);
    [|intros s Hs IH|intros c s Hs IH].
  - rewrite replace_nil by assumption. apply Nat.le_refl.
  - rewrite replace_hit by assumption.
    rewrite (startswith_split _ _ Hs) at 1.
    rewrite !length_app. lia.
  - rewrite replace_miss by assumption. simpl. lia.
Qed.

Lemma replace_ext_length_lt s :
  ext <> [] -> contains s old = true ->
  List.length s < List.length (replace s old (old ++ ext)).
Proof.
  intros Hext.
  pattern s; revert s; apply (@replace_scan_ind old _ old_nonempty);
    [|intros s Hs IH|intros c s Hs IH]; intros Hc.
  - destruct old; [congruence|discriminate].
  - rewrite replace_hit by assumption.
    rewrite (startswith_split _ _ Hs) at 1.
    pose proof (replace_ext_length_le (skipn (List.length old) s)).
    rewrite !length_app. destruct ext; [congruence|]. simpl. lia.
  - rewrite replace_miss by assumption.
    rewrite contains_cons_miss in Hc by assumption.
    specialize (IH Hc). simpl. lia.
Qed.

(** The replacement still holds the pattern. *)
Lemma replace_ext_contains s :
  contains s old = true -> contains (replace s old (old ++ ext)) old = true.
Proof.
  pattern s; revert s; apply (@replace_scan_ind old _ old_nonempty);
    [|intros s Hs IH|intros c s Hs IH]; intros Hc.
  - destruct old; [congruence|discriminate].
  - rewrite replace_hit by assumption.
    apply contains_hit. rewrite <- app_assoc. apply startswith_app.
  - rewrite replace_miss by assumption.
    rewrite contains_cons_miss in Hc by assumption.
    cbn [PyStr.contains]. rewrite (IH Hc). apply orb_true_r.
Qed.
End Extending.

(** Another pattern [p], whose first element is not in [old] and which does
    not hold the first element of [old], survives the replacement. *)
Section Foreign.
Variables (o : A) (old' : list A) (a : A) (p' : list A) (new : list A).
Let old := o :: old'.
Let p := a :: p'.
Hypothesis a_not_in_old : ~ In a old.
Hypothesis o_not_in_p : ~ In o p.

Lemma contains_after_foreign u s :
  (forall c, In c u -> c <> a) -> contains (u ++ s) p = contains s p.
Proof.
  intros Hu. induction u as [|c u IH]; [reflexivity|].
  cbn [app]. rewrite contains_cons_miss.
  - apply IH. intros c' Hc'. apply Hu. now right.
  - unfold p. cbn [PyStr.startswith].
    destruct (eqb_spec a c) as [->|]; [|reflexivity].
    exfalso. apply (Hu c); [now left|reflexivity].
Qed.

Lemma replace_keeps_prefix q s :
  ~ In o q -> startswith s q = true ->
  startswith (replace s old new) q = true.
Proof.
  revert s. induction q as [|b q IH]; intros s Hq Hs; [reflexivity|].
  destruct s as [|c s]; [discriminate|].
  cbn [PyStr.startswith] in Hs. apply andb_true_iff in Hs as [Hbc Hs].
  destruct (eqb_spec b c) as [->|]; [|discriminate].
  rewrite replace_miss.
  - cbn [PyStr.startswith]. rewrite eqb_refl. simpl.
    apply IH; [|exact Hs]. intros Hin. apply Hq. now right.
  - discriminate.
  - unfold old. cbn [PyStr.startswith].
    destruct (eqb_spec o c) as [->|]; [|reflexivity].
    exfalso. apply Hq. now left.
Qed.

Lemma replace_foreign_contains s :
  contains s p = true -> contains (replace s old new) p = true.
Proof.
  assert (Hne : old <> []) by discriminate.
  pattern s; revert s; apply (@replace_scan_ind old _ Hne);
    [|intros s Hs IH|intros c s Hs IH]; intros Hc.
  - discriminate.
  - rewrite replace_hit by assumption.
    apply contains_app_r. apply IH.
    rewrite (startswith_split _ _ Hs) in Hc.
    rewrite contains_after_foreign in Hc; [exact Hc|].
    intros c Hc' ->. now apply a_not_in_old.
  - rewrite replace_miss by assumption.
    cbn [PyStr.contains] in Hc. apply orb_true_iff in Hc as [Hc|Hc].
    + apply contains_hit.
      rewrite <- (@replace_miss old new c s Hne Hs).
      apply replace_keeps_prefix; assumption.
    + cbn [PyStr.contains]. rewrite (IH Hc). apply orb_true_r.
Qed.
End Foreign.
End Sequences.

End PyStrFacts.

Import PyStrFacts.

(** ** Marking the occurrences of two patterns

    The facts about the safety filter hold for any two patterns over any
    alphabet (bytes of the encoding, or code points), provided neither
    pattern holds the first element of the other. *)

Section Marking.
Context {A : Type}.
Variable eqb : A -> A -> bool.
Hypothesis eqb_spec : forall a b, reflect (a = b) (eqb a b).
Variables (a1 : A) (rest1 : list A) (a2 : A) (rest2 : list A).
Variable mark : list A.
Local Open Scope list_scope.

Let first : list A := a1 :: rest1.
Let second : list A := a2 :: rest2.

Hypothesis mark_nonempty : mark <> [].
Hypothesis first_foreign : ~ In a1 second.
Hypothesis second_foreign : ~ In a2 first.

Local Abbreviation contains := (contains eqb).
Local Abbreviation replace := (replace eqb).
Local Abbreviation marked := (mark_both eqb first second mark).

Lemma first_nonempty : first <> [].
Proof. discriminate. Qed.

Lemma second_nonempty : second <> [].
Proof. discriminate. Qed.

Lemma mark_both_absent s :
  contains s first = false -> contains s second = false -> marked s = s.
Proof.
  intros H1 H2. unfold mark_both.
  rewrite (replace_absent eqb first _ s first_nonempty H1).
  now rewrite (replace_absent eqb second _ s second_nonempty H2).
Qed.

(** Marking keeps every occurrence of either pattern in place. *)
Lemma mark_both_keeps_first s :
  contains s first = true -> contains (marked s) first = true.
Proof.
  intros H. unfold mark_both.
  apply (replace_foreign_contains eqb eqb_spec a2 rest2 a1 rest1);
    [exact first_foreign|exact second_foreign|].
  now apply (replace_ext_contains eqb eqb_spec first mark first_nonempty).
Qed.

Lemma mark_both_keeps_second s :
  contains s second = true -> contains (marked s) second = true.
Proof.
  intros H. unfold mark_both.
  apply (replace_ext_contains eqb eqb_spec second mark second_nonempty).
  now apply (replace_foreign_contains eqb eqb_spec a1 rest1 a2 rest2).
Qed.

(** A sequence that marking leaves alone holds neither pattern. *)
Lemma mark_both_fixed s :
  marked s = s -> contains s first = false /\ contains s second = false.
Proof.
  intros Hfix. unfold mark_both in Hfix.
  pose proof (replace_ext_length_le eqb eqb_spec first mark first_nonempty s)
    as H1.
  pose proof (replace_ext_length_le eqb eqb_spec second mark second_nonempty
                (replace s first (first ++ mark))) as H2.
  rewrite Hfix in H2.
  assert (Hr : contains s first = false).
  { destruct (contains s first) eqn:E; [|reflexivity].
    pose proof (replace_ext_length_lt eqb eqb_spec first mark first_nonempty s
                  mark_nonempty E). lia. }
  split; [exact Hr|].
  rewrite (replace_absent eqb first _ s first_nonempty Hr) in Hfix.
  destruct (contains s second) eqn:E; [|reflexivity].
  pose proof (replace_ext_length_lt eqb eqb_spec second mark second_nonempty s
                mark_nonempty E) as H3.
  rewrite Hfix in H3. lia.
Qed.

(** Marking twice is marking once exactly where there is nothing to mark. *)
Lemma mark_both_twice s :
  marked (marked s) = marked s <->
  contains s first = false /\ contains s second = false.
Proof.
  split.
  - intros H. apply mark_both_fixed in H as [H1 H2]. split.
    + destruct (contains s first) eqn:E; [|reflexivity].
      apply mark_both_keeps_first in E. congruence.
    + destruct (contains s second) eqn:E; [|reflexivity].
      apply mark_both_keeps_second in E. congruence.
  - intros [H1 H2]. rewrite !(mark_both_absent _ H1 H2). reflexivity.
Qed.
End Marking.

(** ** The safety filter *)

Lemma chars_text l : chars (text l) = l.
Proof. apply list_ascii_of_string_of_list_ascii. Qed.

Lemma safety_filter_on flags x :
  truthy (dict_get flags "hide_exact_costs" (VBool false)) = true ->
  safety_filter x flags = text (redact (chars x)).
Proof.
  intros H. unfold safety_filter. rewrite H.
  unfold str_replace. now rewrite chars_text.
Qed.

Lemma safety_filter_off flags x :
  truthy (dict_get flags "hide_exact_costs" (VBool false)) = false ->
  safety_filter x flags = x.
Proof. intros H. unfold safety_filter. now rewrite H. Qed.

Lemma text_chars s : text (chars s) = s.
Proof. apply string_of_list_ascii_of_string. Qed.

Lemma redact_absent (s : list ascii) :
  contains Ascii.eqb s (chars "₹") = false ->
  contains Ascii.eqb s (chars "INR") = false ->
  redact s = s.
Proof.
  apply (mark_both_absent Ascii.eqb
           "226"%char ["130"%char; "185"%char] "I"%char (chars "NR")
           (chars "~")).
Qed.

(** The glyph is three bytes, none of them a letter of the code. *)
Lemma redact_twice (s : list ascii) :
  redact (redact s) = redact s <->
  contains Ascii.eqb s (chars "₹") = false /\
  contains Ascii.eqb s (chars "INR") = false.
Proof.
  apply (mark_both_twice Ascii.eqb Ascii.eqb_spec
           "226"%char ["130"%char; "185"%char] "I"%char (chars "NR")
           (chars "~")).
  - discriminate.
  - cbv. intuition discriminate.
  - cbv. intuition discriminate.
Qed.

(** The same with a text read as its code points, the glyph being U+20B9. *)
Lemma mark_both_twice_code_points (s : list N) :
  mark_both N.eqb [8377%N] [73%N; 78%N; 82%N] [126%N]
    (mark_both N.eqb [8377%N] [73%N; 78%N; 82%N] [126%N] s)
  = mark_both N.eqb [8377%N] [73%N; 78%N; 82%N] [126%N] s <->
  contains N.eqb s [8377%N] = false /\
  contains N.eqb s [73%N; 78%N; 82%N] = false.
Proof.
  apply (mark_both_twice N.eqb N.eqb_spec 8377%N [] 73%N [78%N; 82%N] [126%N]).
  - discriminate.
  - cbv. intuition discriminate.
  - cbv. intuition discriminate.
Qed.

(** C1 (as the code has it): filtering twice equals filtering once exactly
    when [hide_exact_costs] is unset (or falsy), or the text holds neither the
    currency glyph nor the currency code; in both cases the filter returns
    the text unchanged. *)
Theorem safety_filter_idempotent_iff (x : string) (f : dict) :
  (safety_filter (safety_filter x f) f = safety_filter x f <->
   (truthy (dict_get f "hide_exact_costs" (VBool false)) = false \/
    (str_contains x "₹" = false /\ str_contains x "INR" = false))) /\
  ((truthy (dict_get f "hide_exact_costs" (VBool false)) = false \/
    (str_contains x "₹" = false /\ str_contains x "INR" = false)) ->
   safety_filter x f = x).
Proof.
  destruct (truthy (dict_get f "hide_exact_costs" (VBool false))) eqn:Hflag.
  - rewrite !(safety_filter_on _ _ Hflag), chars_text.
    split; [split|].
    + intros H. right. apply redact_twice.
      apply (f_equal chars) in H. now rewrite !chars_text in H.
    + intros [H|H]; [discriminate|].
      f_equal. now apply redact_twice.
    + intros [H|[H1 H2]]; [discriminate|].
      rewrite (redact_absent _ H1 H2). apply text_chars.
  - rewrite !(safety_filter_off _ _ Hflag).
    split; [split; [now left|reflexivity]|reflexivity].
Qed.

(** C1, the claim as stated, fails: with [hide_exact_costs] set, a second pass
    over a text with a currency glyph adds a second mark. *)
Lemma safety_filter_not_idempotent :
  safety_filter "₹100" [("hide_exact_costs", VBool true)] = "₹~100" /\
  safety_filter (safety_filter "₹100" [("hide_exact_costs", VBool true)])
    [("hide_exact_costs", VBool true)] = "₹~~100".
Proof. split; reflexivity. Qed.

(** ** Rounding and sums *)

(** Identities between fractions, decided on numerators and denominators. *)
Ltac fractions :=
  unfold Qeq, Qminus, Qplus, Qopp, Qmult, inject_Z; cbn [Qnum Qden]; lia.

Section Rounding.
Local Open Scope Q_scope.

Lemma round_half_even_comp (p q : Q) :
  p == q -> round_half_even p = round_half_even q.
Proof.
  intros H. unfold round_half_even.
  rewrite (Qfloor_comp _ _ H).
  assert (Hc : (p - inject_Z (Qfloor q) ?= 1 # 2)
               = (q - inject_Z (Qfloor q) ?= 1 # 2)).
  { apply Qcompare_comp; [now rewrite H | reflexivity]. }
  now rewrite Hc.
Qed.

Lemma round_half_even_Z (k : Z) : round_half_even (inject_Z k) = k.
Proof.
  unfold round_half_even. rewrite Qfloor_Z.
  assert (H : (inject_Z k - inject_Z k ?= 1 # 2) = Lt).
  { apply Qlt_alt. setoid_replace (inject_Z k - inject_Z k) with 0 by ring.
    reflexivity. }
  now rewrite H.
Qed.


Lemma round_half_even_tie (q : Q) :
  q - inject_Z (Qfloor q) == 1 # 2 -> Z.even (round_half_even q) = true.
Proof.
  intros H. unfold round_half_even.
  apply Qeq_alt in H. rewrite H.
  destruct (Z.even (Qfloor q)) eqn:E; [exact E|].
  rewrite Z.even_add, E. reflexivity.
Qed.

(** Rounding to two digits leaves a number of hundredths as it is. *)
Lemma py_round_2_exact (q : Q) (k : Z) : q == k # 100 -> py_round q 2 = k # 100.
Proof.
  intros H. unfold py_round. change (pow10 2) with 100%positive. f_equal.
  transitivity (round_half_even (inject_Z k)); [|apply round_half_even_Z].
  apply round_half_even_comp.
  rewrite H. fractions.
Qed.

Lemma py_sum_from (l : list Q) (a : Q) : fold_left Qplus l a == a + py_sum l.
Proof.
  unfold py_sum. revert a. induction l as [|x l IH]; intros a; simpl.
  - ring.
  - rewrite IH, (IH (0 + x)). ring.
Qed.

Lemma py_sum_cons (x : Q) (l : list Q) : py_sum (x :: l) == x + py_sum l.
Proof. unfold py_sum at 1. simpl. rewrite py_sum_from. ring. Qed.

Lemma hundredths_add (a b : Z) : (a # 100) + (b # 100) == (a + b) # 100.
Proof. fractions. Qed.

Lemma py_sum_hundredths (ks : list Z) :
  py_sum (map (fun k => k # 100) ks) == fold_right Z.add 0%Z ks # 100.
Proof.
  induction ks as [|k ks IH]; [reflexivity|].
  cbn [map fold_right]. rewrite py_sum_cons, IH. apply hundredths_add.
Qed.

Lemma hundredths_one_minus (c : Q) (K : Z) :
  c == K # 100 -> 1 - c == (100 - K) # 100.
Proof. intros ->. fractions. Qed.
End Rounding.

(** ** Normalization *)

Section Normalization.
Local Open Scope Q_scope.

Lemma attribution_set (f : Feature) (a : Q) : attribution (set_attribution f a) = a.
Proof. reflexivity. Qed.

Lemma rounded_attributions (total : Q) (features : list Feature) :
  map attribution
    (map (fun f => set_attribution f (py_round (attribution f / total) 2))
       features)
  = map (fun k => k # 100) (rounded_shares total features).
Proof.
  unfold rounded_shares. rewrite !map_map. apply map_ext. intros f.
  reflexivity.
Qed.

(** Where the magnitudes do not sum to zero, the result sums to one and is
    made of hundredths. *)
Lemma normalize_attributions_sum (features : list Feature) :
  features <> [] ->
  ~ py_sum (map (fun f => Qabs (attribution f)) features) == 0 ->
  py_sum (map attribution (normalize_attributions features)) == 1 /\
  Forall (fun f => two_decimals (attribution f)) (normalize_attributions features).
Proof.
  intros Hne Htotal. unfold normalize_attributions.
  destruct features as [|f0 fs]; [congruence|].
  set (features := f0 :: fs) in *.
  set (total := py_sum (map (fun f => Qabs (attribution f)) features)) in *.
  destruct (Qeq_bool total 0) eqn:Hz.
  { apply Qeq_bool_eq in Hz. contradiction. }
  set (features1 :=
         map (fun f => set_attribution f (py_round (attribution f / total) 2))
           features).
  pose proof (rounded_attributions total features) as Hattr.
  fold features1 in Hattr.
  set (ks := rounded_shares total features) in *.
  set (K := fold_right Z.add 0%Z ks).
  assert (Hsum : py_sum (map attribution features1) == K # 100).
  { rewrite Hattr. apply py_sum_hundredths. }
  assert (Hdiff : py_round (1 - py_sum (map attribution features1)) 2
                  = (100 - K) # 100).
  { apply py_round_2_exact. now apply hundredths_one_minus. }
  rewrite Hdiff.
  assert (Hall : Forall (fun f => two_decimals (attribution f)) features1).
  { apply Forall_forall. intros f Hf. unfold features1 in Hf.
    apply in_map_iff in Hf as [g [<- _]]. rewrite attribution_set.
    eexists. unfold py_round. change (pow10 2) with 100%positive. reflexivity. }
  destruct (Qeq_bool ((100 - K) # 100) 0) eqn:Hd; cbn [negb].
  - apply Qeq_bool_eq in Hd. split; [|exact Hall].
    rewrite Hsum. revert Hd. fractions.
  - unfold features1 at 1 3. unfold features. cbn [map].
    fold features1.
    set (rest := map (fun f => set_attribution f
                                 (py_round (attribution f / total) 2)) fs) in *.
    rewrite attribution_set.
    set (k0 := round_half_even (attribution f0 / total * inject_Z 100)).
    assert (Hks : ks = k0 :: rounded_shares total fs) by reflexivity.
    assert (Hrest : map attribution rest
                    = map (fun k => k # 100) (rounded_shares total fs)).
    { apply rounded_attributions. }
    assert (Hfirst : py_round (py_round (attribution f0 / total) 2
                               + ((100 - K) # 100)) 2
                     = (k0 + (100 - K)) # 100).
    { apply py_round_2_exact. unfold py_round at 1.
      change (pow10 2) with 100%positive. fold k0. apply hundredths_add. }
    rewrite !attribution_set, Hfirst. split.
    + cbn [map]. rewrite ?attribution_set, py_sum_cons, Hrest, py_sum_hundredths.
      rewrite hundredths_add. unfold K. rewrite Hks. cbn [fold_right].
      fractions.
    + constructor.
      * rewrite ?attribution_set. eexists. reflexivity.
      * unfold features1, features in Hall. cbn [map] in Hall.
        now inversion Hall.
Qed.

(** Where they do sum to zero, the list is returned as it is. *)
Lemma normalize_attributions_zero (features : list Feature) :
  py_sum (map (fun f => Qabs (attribution f)) features) == 0 ->
  normalize_attributions features = features.
Proof.
  intros H. unfold normalize_attributions. destruct features; [reflexivity|].
  now rewrite (Qeq_eq_bool _ _ H).
Qed.
End Normalization.




(** ** The double nearest to a rational *)

Section DoubleFacts.
Local Open Scope Q_scope.




Lemma pow2_lt (x y : Z) : (x < y)%Z -> 2 ^ x < 2 ^ y.
Proof. intros H. apply Qpower_lt_compat_l; [exact H|reflexivity]. Qed.
















End DoubleFacts.

(** ** The stable descending sort *)

Section SortingFacts.
Context {A : Type}.
Local Open Scope list_scope.

Lemma key_gt_lt (x y : Q * A) : key_gt x y = true -> (fst y < fst x)%Q.
Proof.
  unfold key_gt. intros H. apply negb_true_iff in H.
  apply Qnot_le_lt. intros Hle. apply Qle_bool_iff in Hle. congruence.
Qed.

Lemma key_gt_false_le (x y : Q * A) : key_gt x y = false -> (fst x <= fst y)%Q.
Proof.
  unfold key_gt. intros H. apply negb_false_iff in H. now apply Qle_bool_iff.
Qed.

Lemma insert_desc_perm (x : Q * A) (l : list (Q * A)) :
  Permutation (insert_desc x l) (x :: l).
Proof.
  induction l as [|y l IH]; cbn [insert_desc]; [reflexivity|].
  destruct (key_gt y x); [|reflexivity].
  rewrite IH. apply perm_swap.
Qed.

Lemma sort_desc_perm (l : list (Q * A)) : Permutation (sort_desc l) l.
Proof.
  induction l as [|x l IH]; [reflexivity|].
  unfold sort_desc. cbn [fold_right]. fold (sort_desc l).
  rewrite insert_desc_perm. now constructor.
Qed.

Lemma insert_desc_sorted (x : Q * A) (l : list (Q * A)) :
  StronglySorted key_ge l -> StronglySorted key_ge (insert_desc x l).
Proof.
  induction 1 as [|y l Hs IH Hy]; cbn [insert_desc].
  - repeat constructor.
  - destruct (key_gt y x) eqn:Hgt.
    + constructor; [exact IH|].
      apply (Permutation_Forall (x := x :: l)).
      * symmetry. apply insert_desc_perm.
      * constructor; [|exact Hy]. apply Qlt_le_weak. now apply key_gt_lt.
    + apply key_gt_false_le in Hgt. constructor.
      * now constructor.
      * constructor; [exact Hgt|].
        eapply Forall_impl; [|exact Hy]. intros z Hz. unfold key_ge in *.
        eapply Qle_trans; eassumption.
Qed.

Lemma sort_desc_sorted (l : list (Q * A)) : StronglySorted key_ge (sort_desc l).
Proof.
  induction l as [|x l IH]; [constructor|].
  unfold sort_desc. cbn [fold_right]. now apply insert_desc_sorted.
Qed.

(** An insertion moves the new element only past elements of a strictly
    greater key, so the elements of any one key keep their order. *)
Lemma insert_desc_stable (k : Q) (x : Q * A) (l : list (Q * A)) :
  with_key k (insert_desc x l) = with_key k (x :: l).
Proof.
  induction l as [|y l IH]; cbn [insert_desc]; [reflexivity|].
  destruct (key_gt y x) eqn:Hgt; [|reflexivity].
  unfold with_key in *. cbn [filter] in *. rewrite IH.
  destruct (Qeq_bool (fst y) k) eqn:Ey, (Qeq_bool (fst x) k) eqn:Ex;
    try reflexivity.
  apply Qeq_bool_eq in Ey, Ex. apply key_gt_lt in Hgt.
  rewrite Ey, Ex in Hgt. now apply Qlt_irrefl in Hgt.
Qed.

Lemma sort_desc_stable (k : Q) (l : list (Q * A)) :
  with_key k (sort_desc l) = with_key k l.
Proof.
  induction l as [|x l IH]; [reflexivity|].
  unfold sort_desc. cbn [fold_right]. fold (sort_desc l).
  rewrite insert_desc_stable. unfold with_key in *. cbn [filter].
  now rewrite IH.
Qed.
End SortingFacts.

(** ** The stable descending order is unique *)

Section StableUnique.
Context {A : Type}.
Local Open Scope list_scope.

Lemma with_key_head (x : Q * A) (l : list (Q * A)) :
  with_key (fst x) (x :: l) = x :: with_key (fst x) l.
Proof. unfold with_key. cbn [filter]. now rewrite Qeq_bool_refl. Qed.

Lemma with_key_In (k : Q) (x : Q * A) (l : list (Q * A)) :
  In x (with_key k l) -> In x l.
Proof. unfold with_key. intros H. now apply filter_In in H. Qed.

Lemma sorted_head_max (x y : Q * A) (l : list (Q * A)) :
  StronglySorted key_ge (y :: l) -> In x (y :: l) -> (fst x <= fst y)%Q.
Proof.
  intros Hs [<-|Hin]; [apply Qle_refl|].
  apply StronglySorted_inv in Hs as [_ Hall].
  rewrite Forall_forall in Hall. exact (Hall x Hin).
Qed.

(** A list sorted by descending key is determined by the order it gives the
    elements of each key. *)
Lemma stable_sort_unique (l1 l2 : list (Q * A)) :
  StronglySorted key_ge l1 -> StronglySorted key_ge l2 ->
  (forall k, with_key k l1 = with_key k l2) -> l1 = l2.
Proof.
  revert l2. induction l1 as [|x l1 IH]; intros l2 H1 H2 Hk.
  - destruct l2 as [|y l2]; [reflexivity|].
    specialize (Hk (fst y)). rewrite with_key_head in Hk. discriminate.
  - destruct l2 as [|y l2].
    { specialize (Hk (fst x)). rewrite with_key_head in Hk. discriminate. }
    assert (Hxy : (fst x <= fst y)%Q).
    { apply (sorted_head_max x y l2 H2). apply (with_key_In (fst x)).
      rewrite <- Hk, with_key_head. now left. }
    assert (Hyx : (fst y <= fst x)%Q).
    { apply (sorted_head_max y x l1 H1). apply (with_key_In (fst y)).
      rewrite Hk, with_key_head. now left. }
    assert (Heq : (fst y == fst x)%Q) by now apply Qle_antisym.
    pose proof (Hk (fst x)) as Hx. rewrite with_key_head in Hx.
    unfold with_key in Hx. cbn [filter] in Hx.
    rewrite (Qeq_eq_bool _ _ Heq) in Hx. injection Hx as <- _.
    f_equal. apply StronglySorted_inv in H1 as [H1 _].
    apply StronglySorted_inv in H2 as [H2 _].
    apply IH; [exact H1|exact H2|].
    intros k. specialize (Hk k). unfold with_key in *. cbn [filter] in Hk.
    destruct (Qeq_bool (fst x) k); [now injection Hk|exact Hk].
Qed.
End StableUnique.

(** ** The order of the features in a rendered explanation *)

Lemma bind_Ok {A B : Type} (m : res A) (k : A -> res B) (b : B) :
  bind m k = Ok b -> exists a, m = Ok a /\ k a = Ok b.
Proof. destruct m as [a|e]; [now exists a|discriminate]. Qed.

(** One step through a sequence of binds that ended in [Ok]. *)
Tactic Notation "bound" hyp(H) "as" ident(x) ident(E) :=
  apply bind_Ok in H as [x [E H]]; cbv beta zeta in H.

Lemma Ok_inj {A : Type} (a b : A) : Ok a = Ok b -> a = b.
Proof. congruence. Qed.

Lemma mapM_Forall2 {A B : Type} (f : A -> res B) (l : list A) (r : list B) :
  mapM f l = Ok r -> Forall2 (fun x y => f x = Ok y) l r.
Proof.
  revert r. induction l as [|x l IH]; intros r H; cbn [mapM] in H.
  - injection H as <-. constructor.
  - destruct (f x) as [y|e] eqn:Hx; [|discriminate]. cbn [bind] in H.
    destruct (mapM f l) as [ys|e]; [|discriminate]. cbn [bind] in H.
    injection H as <-. constructor; [exact Hx|now apply IH].
Qed.




(** The sort key that the code computes is the absolute value of the
    attribution. *)
Lemma abs_attribution_magnitude (x : value) (k : Q) :
  abs_attribution x = Ok k -> magnitude x k.
Proof.
  unfold abs_attribution, subscript, getitem, py_abs, as_number. intros H.
  destruct x as [| | | | |d]; try discriminate.
  destruct (lookup "attribution" d) as [a|] eqn:Ha; [|discriminate].
  cbn [bind] in H. exists d, a. split; [reflexivity|]. split; [exact Ha|].
  destruct a as [|b|n| | |]; try discriminate; cbn [bind] in H;
    injection H as <-; [now destruct b|reflexivity].
Qed.

Lemma magnitude_unique (x : value) (k1 k2 : Q) :
  magnitude x k1 -> magnitude x k2 -> k1 = k2.
Proof.
  intros [d1 [a1 [-> [Ha1 H1]]]] [d2 [a2 [Hd [Ha2 H2]]]].
  injection Hd as <-. rewrite Ha1 in Ha2. injection Ha2 as <-.
  destruct a1; try contradiction; congruence.
Qed.

Lemma sorted_features_of_spec (features : value) (sorted : list value) :
  sorted_features_of features = Ok sorted ->
  exists items, iterate features = Ok items /\ sorted_by_attribution items sorted.
Proof.
  unfold sorted_features_of. intros H.
  destruct (iterate features) as [items|e]; [|discriminate]. cbn [bind] in H.
  destruct (mapM _ items) as [keyed|e] eqn:Hk; [|discriminate].
  cbn [bind] in H. injection H as <-.
  exists items. split; [reflexivity|]. exists keyed.
  apply mapM_Forall2 in Hk.
  assert (Hkeys : map snd keyed = items /\
                  Forall (fun kx => magnitude (snd kx) (fst kx)) keyed).
  { induction Hk as [|x kx items keyed Hx Hk IH]; [now split|].
    destruct IH as [IH1 IH2].
    destruct (abs_attribution x) as [k|e] eqn:Hkx; [|discriminate].
    cbn [bind] in Hx. injection Hx as <-. cbn [map snd].
    split; [now rewrite IH1|].
    constructor; [now apply abs_attribution_magnitude|exact IH2]. }
  destruct Hkeys as [H1 H2]. repeat split; [exact H1|exact H2|].
  exists (sort_desc keyed). repeat split.
  - apply sort_desc_perm.
  - apply sort_desc_sorted.
  - intros k. apply sort_desc_stable.
Qed.

Lemma keyed_unique (keyed1 keyed2 : list (Q * value)) :
  map snd keyed1 = map snd keyed2 ->
  Forall (fun kx => magnitude (snd kx) (fst kx)) keyed1 ->
  Forall (fun kx => magnitude (snd kx) (fst kx)) keyed2 ->
  keyed1 = keyed2.
Proof.
  revert keyed2. induction keyed1 as [|[k1 x1] l1 IH]; intros [|[k2 x2] l2];
    cbn [map snd]; try discriminate; [reflexivity|].
  intros Hsnd Hf1 Hf2. injection Hsnd as -> Hsnd.
  inversion Hf1 as [|? ? Hx1 Hl1]; subst.
  inversion Hf2 as [|? ? Hx2 Hl2]; subst.
  cbn [fst snd] in Hx1, Hx2. rewrite (magnitude_unique _ _ _ Hx1 Hx2).
  f_equal. now apply IH.
Qed.

(** The order that [sorted_by_attribution] describes is the only one. *)
Lemma sorted_by_attribution_unique (items sorted1 sorted2 : list value) :
  sorted_by_attribution items sorted1 ->
  sorted_by_attribution items sorted2 ->
  sorted1 = sorted2.
Proof.
  intros [keyed1 [Hi1 [Hf1 [s1 [<- [_ [Hs1 Hk1]]]]]]]
         [keyed2 [Hi2 [Hf2 [s2 [<- [_ [Hs2 Hk2]]]]]]].
  assert (keyed1 = keyed2) as ->.
  { apply keyed_unique; [congruence|exact Hf1|exact Hf2]. }
  f_equal. apply stable_sort_unique; [exact Hs1|exact Hs2|].
  intros k. now rewrite Hk1, Hk2.
Qed.

Section RenderingFacts.
Variable format_value : value -> string.
Variable str_title : string -> string.

End RenderingFacts.

(** The feature of greatest absolute attribution comes first, though it is
    negative; the two features of absolute attribution 0.10 follow in the
    order they have in the evidence. *)
Example sorted_features_of_tied :
  sorted_features_of
    (VList [ feature_dict "demand_index" (10 # 100) 3;
             feature_dict "inventory_level" (- 90 # 100) (- 4);
             feature_dict "raw_material_cost" (- 10 # 100) 10 ])
  = Ok [ feature_dict "inventory_level" (- 90 # 100) (- 4);
         feature_dict "demand_index" (10 # 100) 3;
         feature_dict "raw_material_cost" (- 10 # 100) 10 ].
Proof. reflexivity. Qed.


(** In that text the line of [inventory_level] (attribution -0.90) stands
    before the line of [demand_index] (0.10), which stands before the line
    of [raw_material_cost] (-0.10). *)
Example rendered_order_of_tied :
  exists rendered before between1 between2 after,
    format_explanation plain_format plain_title tied_evidence "regulator"
    = Ok rendered /\
    rendered = before ++ "• inventory_level: " ++ between1
               ++ "• demand_index: " ++ between2
               ++ "• raw_material_cost: " ++ after.
Proof.
  eexists _,
    ("# Price Change Explanation (Regulatory Audit)" ++ nl ++ nl
     ++ "**Price Change Summary**" ++ nl
     ++ "• Price: ₹? → ₹?" ++ nl
     ++ "• Time Window: 2024-01-01 to 2024-01-02" ++ nl
     ++ "• ML Model: v1" ++ nl ++ nl
     ++ "**Machine Learning–Based Feature Attribution**" ++ nl
     ++ "The model detected a price increase driven by the following factors:"
     ++ nl),
    ("?% attribution (Input change: ?%)" ++ nl),
    ("?% attribution (Input change: ?%)" ++ nl), _.
  split; [vm_compute; reflexivity|]. vm_compute. reflexivity.
Qed.

(** ** The attribution engine *)

Section EngineFacts.
Local Open Scope list_scope.




(** The gate raises nothing but [OverflowError]. *)
Lemma insignificant_change_raises (old_price new_price : number) (e : exn) :
  insignificant_change old_price new_price = Raise e -> e = OverflowError.
Proof.
  unfold insignificant_change, float_of.
  destruct new_price as [new|new], old_price as [old|old]; cbn [bind];
    try discriminate;
    repeat match goal with
    | |- context [match Double.nearest ?q with _ => _ end] =>
        destruct (Double.nearest q); cbn [bind]
    end; congruence.
Qed.

(** Between two float prices the gate does not raise. *)
Lemma insignificant_change_floats (old_price new_price : Q) :
  exists skip,
    insignificant_change (Float old_price) (Float new_price) = Ok skip.
Proof. now eexists. Qed.

Lemma lookup_key {V : Type} (key : string) (d : list (string * V)) :
  In key (map fst d) -> exists v, lookup key d = Some v.
Proof.
  induction d as [|[k v] d IH]; cbn [map fst In lookup]; [easy|].
  intros [->|H].
  - rewrite String.eqb_refl. now exists v.
  - destruct (String.eqb k key); [now exists v|now apply IH].
Qed.

Lemma has_key_lookup {V : Type} (key : string) (d : list (string * V)) :
  has_key key d = true -> exists v, lookup key d = Some v.
Proof.
  unfold has_key. destruct (lookup key d) as [v|]; [now exists v|discriminate].
Qed.

Lemma significant_pos (x : Q) : significant x = true -> (0 < x)%Q.
Proof.
  unfold significant. intros H. apply negb_true_iff in H.
  apply Qlt_trans with (y := (1 # 1000)%Q); [reflexivity|].
  apply Qnot_le_lt. intros Hle. apply Qle_bool_iff in Hle. congruence.
Qed.

(** The fallback loop returns when every key it visits is in both inputs, and
    names its features after keys it visited. *)
Lemma fallback_features_ok
  (keys : list string) (old_inputs new_inputs : list (string * number))
  (acc : list Feature) :
  (forall key, In key keys -> In key (map fst old_inputs)) ->
  (forall key, In key keys -> has_key key new_inputs = true) ->
  exists features,
    fallback_features keys old_inputs new_inputs acc = Ok features /\
    (forall f, In f features -> In f acc \/ In (name f) keys).
Proof.
  revert acc. induction keys as [|key keys IH]; intros acc Hold Hnew.
  - exists acc. cbn [fallback_features]. split; auto.
  - cbn [fallback_features]. unfold input_of.
    destruct (lookup_key key old_inputs (Hold key (or_introl eq_refl)))
      as [old_val ->].
    destruct (has_key_lookup key new_inputs (Hnew key (or_introl eq_refl)))
      as [new_val ->].
    cbn [bind].
    match goal with
    | |- context [fallback_features keys old_inputs new_inputs ?acc'] =>
        destruct (IH acc') as [features [Hf Hnames]]
    end.
    { intros k Hk. apply Hold. now right. }
    { intros k Hk. apply Hnew. now right. }
    exists features. split; [exact Hf|].
    intros f Hin. destruct (Hnames f Hin) as [Hacc|Hkeys].
    + destruct (significant _); [|now left].
      apply in_app_or in Hacc as [Hacc|[<-|[]]]; [now left|].
      right. now left.
    + right. now right.
Qed.

(** Every feature the loops add has a positive attribution. *)
Lemma fallback_features_positive
  (keys : list string) (old_inputs new_inputs : list (string * number))
  (acc features : list Feature) :
  fallback_features keys old_inputs new_inputs acc = Ok features ->
  Forall (fun f => 0 < attribution f)%Q acc ->
  Forall (fun f => 0 < attribution f)%Q features.
Proof.
  revert acc. induction keys as [|key keys IH]; intros acc H Hacc.
  - cbn [fallback_features] in H. now injection H as <-.
  - cbn [fallback_features] in H.
    destruct (input_of old_inputs key) as [old_val|e]; [|discriminate].
    destruct (input_of new_inputs key) as [new_val|e]; [|discriminate].
    cbn [bind] in H. apply IH in H; [exact H|].
    destruct (significant _) eqn:Hs; [|exact Hacc].
    apply Forall_app. split; [exact Hacc|]. constructor; [|constructor].
    cbn [attribution]. now apply significant_pos.
Qed.

Lemma shap_features_positive
  (names : list string) (i : nat) (sv : list Q)
  (old_inputs new_inputs : list (string * number))
  (acc features : list Feature) :
  shap_features names i sv old_inputs new_inputs acc = Ok features ->
  Forall (fun f => 0 < attribution f)%Q acc ->
  Forall (fun f => 0 < attribution f)%Q features.
Proof.
  revert i acc. induction names as [|nm names IH]; intros i acc H Hacc.
  - cbn [shap_features] in H. now injection H as <-.
  - cbn [shap_features] in H.
    destruct (nth_error sv i) as [shap_val|]; [|discriminate].
    apply IH in H; [exact H|].
    destruct (significant _) eqn:Hs; [|exact Hacc].
    apply Forall_app. split; [exact Hacc|]. constructor; [|constructor].
    cbn [attribution]. now apply significant_pos.
Qed.

Lemma compute_features_positive
  (self : AttributionEngine) (previous current_state : State)
  (features : list Feature) :
  compute_features self previous current_state = Ok features ->
  Forall (fun f => 0 < attribution f)%Q features.
Proof.
  unfold compute_features. destruct (explainer self) as [explain|].
  - destruct (explain _) as [sv|e]; [|discriminate]. cbn [bind].
    intros H. eapply shap_features_positive; [exact H|constructor].
  - intros H. eapply fallback_features_positive; [exact H|constructor].
Qed.

(** The explainer loop returns when the explainer gave a SHAP value for
    every feature name. *)
Lemma shap_features_ok
  (names : list string) (i : nat) (sv : list Q)
  (old_inputs new_inputs : list (string * number)) (acc : list Feature) :
  i + List.length names <= List.length sv ->
  exists features,
    shap_features names i sv old_inputs new_inputs acc = Ok features.
Proof.
  revert i acc. induction names as [|nm names IH]; intros i acc Hlen.
  - now exists acc.
  - cbn [shap_features]. cbn [List.length] in Hlen.
    destruct (nth_error sv i) as [shap_val|] eqn:Hnth.
    2:{ apply nth_error_None in Hnth. lia. }
    apply IH. lia.
Qed.

Lemma name_set_attribution (f : Feature) (a : Q) :
  name (set_attribution f a) = name f.
Proof. reflexivity. Qed.

(** Normalization changes attributions only. *)
Lemma normalize_attributions_names (features : list Feature) :
  map name (normalize_attributions features) = map name features.
Proof.
  unfold normalize_attributions. destruct features as [|f0 fs]; [reflexivity|].
  destruct (Qeq_bool _ 0); [reflexivity|].
  match goal with
  | |- context [if ?c then _ else _] => destruct c
  end; cbn [map]; rewrite ?name_set_attribution; f_equal;
    rewrite map_map; apply map_ext; intros f; apply name_set_attribution.
Qed.

Lemma py_sum_nonneg (l : list Q) :
  Forall (fun x => 0 <= x)%Q l -> (0 <= py_sum l)%Q.
Proof.
  induction 1 as [|x l Hx _ IH]; [discriminate|].
  rewrite py_sum_cons.
  apply Qle_trans with (y := (0 + 0)%Q); [discriminate|].
  now apply Qplus_le_compat.
Qed.

Lemma py_sum_pos (x : Q) (l : list Q) :
  (0 < x)%Q -> Forall (fun y => 0 <= y)%Q l -> (0 < py_sum (x :: l))%Q.
Proof.
  intros Hx Hl. rewrite py_sum_cons.
  apply Qlt_le_trans with (y := (x + 0)%Q).
  - now rewrite Qplus_0_r.
  - apply Qplus_le_compat; [apply Qle_refl|now apply py_sum_nonneg].
Qed.

(** The features that the attribution computation returns all have a
    positive attribution, so (in exact arithmetic) their normalized
    attributions sum to one and the strict validation rule passes. *)
Lemma attribution_sum_accepted (features : list Feature) :
  Forall (fun f => 0 < attribution f)%Q features ->
  attribution_sum_rejected (normalize_attributions features) = false.
Proof.
  intros Hpos. unfold attribution_sum_rejected.
  destruct features as [|f0 fs]; [apply andb_false_r|].
  assert (Htotal : ~ (py_sum (map (fun f => Qabs (attribution f)) (f0 :: fs))
                      == 0)%Q).
  { inversion Hpos as [|? ? H0 Hfs]; subst. cbn [map]. intros Hz.
    assert (H : (0 < py_sum (Qabs (attribution f0)
                             :: map (fun f => Qabs (attribution f)) fs))%Q).
    { apply py_sum_pos.
      - apply Qlt_le_trans with (y := attribution f0); [exact H0|].
        apply Qle_Qabs.
      - apply Forall_forall. intros y Hy.
        apply in_map_iff in Hy as [f [<- _]]. apply Qabs_nonneg. }
    rewrite Hz in H. now apply Qlt_irrefl in H. }
  destruct (normalize_attributions_sum (f0 :: fs)) as [Hsum _];
    [discriminate|exact Htotal|].
  apply andb_false_iff. left. apply negb_false_iff. apply Qle_bool_iff.
  rewrite Hsum. discriminate.
Qed.

(** A call that went into the attribution computation and got features back
    returns the evidence record built from them. *)
Lemma analyze_change_significant
  (env : Ambient) (self : AttributionEngine) (previous current_state : State)
  (log : list event) (features : list Feature) :
  previous_state self = Some previous ->
  insignificant_change (price previous) (price current_state) = Ok false ->
  compute_features self previous current_state = Ok features ->
  analyze_change env self current_state log
  = (Ok (Some (evidence_object env (price previous) (price current_state)
                 (normalize_attributions features))),
     set_previous_state self current_state,
     log_event log "EVIDENCE_GENERATED"
       (VDict (evidence_object env (price previous) (price current_state)
                 (normalize_attributions features)))).
Proof.
  intros Hprev Hs Hf. unfold analyze_change. rewrite Hprev, Hs, Hf.
  now rewrite (attribution_sum_accepted features
                 (compute_features_positive self previous current_state
                    features Hf)).
Qed.

Lemma analyze_change_first
  (env : Ambient) (self : AttributionEngine) (current_state : State)
  (log : list event) :
  previous_state self = None ->
  analyze_change env self current_state log
  = (Ok None, set_previous_state self current_state, log).
Proof. intros H. unfold analyze_change. now rewrite H. Qed.

Lemma analyze_change_skip
  (env : Ambient) (self : AttributionEngine) (previous current_state : State)
  (log : list event) :
  previous_state self = Some previous ->
  insignificant_change (price previous) (price current_state) = Ok true ->
  analyze_change env self current_state log = (Ok None, self, log).
Proof. intros H Hs. unfold analyze_change. now rewrite H, Hs. Qed.

Lemma analyze_change_attributed
  (env : Ambient) (self : AttributionEngine) (previous current_state : State)
  (log : list event) :
  previous_state self = Some previous ->
  insignificant_change (price previous) (price current_state) = Ok false ->
  match compute_features self previous current_state with
  | Raise e => analyze_change env self current_state log = (Raise e, self, log)
  | Ok features =>
      concluded env self previous current_state log features
        (analyze_change env self current_state log)
  end.
Proof.
  intros H Hs. unfold analyze_change, concluded. rewrite H, Hs.
  destruct (compute_features self previous current_state) as [features|e];
    [|reflexivity].
  destruct (attribution_sum_rejected _); [now right|now left].
Qed.

Lemma analyze_change_gate_raises
  (env : Ambient) (self : AttributionEngine) (previous current_state : State)
  (log : list event) (e : exn) :
  previous_state self = Some previous ->
  insignificant_change (price previous) (price current_state) = Raise e ->
  analyze_change env self current_state log = (Raise e, self, log).
Proof. intros H Hs. unfold analyze_change. now rewrite H, Hs. Qed.
End EngineFacts.


(** C3 (as the code has it): on a call after the first that returns, the
    stored baseline equals the new state when the gate let the call into
    the attribution computation, whether the call produced an evidence
    record or returned [None] because the sum validation failed; when the
    gate skipped the call, it returns [None] and leaves the baseline as it
    was. *)
Theorem analyze_change_baseline
  (env : Ambient) (self : AttributionEngine) (previous current_state : State)
  (log : list event) :
  previous_state self = Some previous ->
  (insignificant_change (price previous) (price current_state) = Ok false ->
   forall outcome self' log',
     analyze_change env self current_state log = (Ok outcome, self', log') ->
     previous_state self' = Some current_state) /\
  (insignificant_change (price previous) (price current_state) = Ok true ->
   exists self' log',
     analyze_change env self current_state log = (Ok None, self', log') /\
     previous_state self' = Some previous).
Proof.
  intros Hprev. split; intros Hd.
  - intros outcome self' log' Hcall.
    pose proof (analyze_change_attributed env self previous current_state log Hprev Hd)
      as H.
    destruct (compute_features self previous current_state) as [features|e].
    + destruct H as [H|H]; rewrite H in Hcall; injection Hcall as _ <- _;
        reflexivity.
    + rewrite H in Hcall. discriminate.
  - exists self, log. split; [|exact Hprev].
    now apply analyze_change_skip with (previous := previous).
Qed.

(** The scenarios of the test script, in fallback mode: a single changed
    input takes the whole attribution; two inputs that changed by the same
    magnitude take a half each. *)
Example scenario_raw_material_spike :
  match compute_features engine_1 old_state_1 new_state_1 with
  | Ok features =>
      map (fun f => (name f, attribution f)) (normalize_attributions features)
  | Raise _ => []
  end = [("raw_material_cost", (100 # 100)%Q)].
Proof. reflexivity. Qed.

Example scenario_equal_magnitudes :
  match compute_features (set_previous_state fallback_engine old_state_2)
          old_state_2 new_state_2 with
  | Ok features =>
      map (fun f => (name f, attribution f)) (normalize_attributions features)
  | Raise _ => []
  end = [("raw_material_cost", (50 # 100)%Q); ("demand_index", (50 # 100)%Q)].
Proof. reflexivity. Qed.



Lemma analyze_change_baseline_witness :
  (forall outcome self' log',
      analyze_change env_1 engine_1 new_state_1 [] = (Ok outcome, self', log') ->
      previous_state self' = Some new_state_1) /\
  (exists self' log',
      analyze_change env_1 engine_1 drifted_state_1 []
      = (Ok None, self', log') /\
      previous_state self' = Some old_state_1).
Proof.
  split.
  - apply (proj1 (analyze_change_baseline env_1 engine_1 old_state_1
                    new_state_1 [] eq_refl)).
    vm_compute; reflexivity.
  - apply (proj2 (analyze_change_baseline env_1 engine_1 old_state_1
                    drifted_state_1 [] eq_refl)).
    vm_compute; reflexivity.
Defined.

(** C3, the claim as stated, fails: on a call after the first with a price
    that moved by 0.005, the call returns [None] and the stored baseline is
    still the old state, not the new one. *)
Lemma analyze_change_skip_keeps_baseline :
  analyze_change env_1 engine_1 drifted_state_1 [] = (Ok None, engine_1, []) /\
  previous_state engine_1 = Some old_state_1 /\
  Some old_state_1 <> Some drifted_state_1.
Proof. split; [vm_compute; reflexivity|]. split; [reflexivity|discriminate]. Qed.

(** The names of the features a returning fallback loop has gathered are
    among the keys it went through. *)
Lemma fallback_features_names
  (keys : list string) (old_inputs new_inputs : list (string * number))
  (acc features : list Feature) :
  fallback_features keys old_inputs new_inputs acc = Ok features ->
  forall f, In f features -> In f acc \/ In (name f) keys.
Proof.
  revert acc. induction keys as [|key keys IH]; intros acc H f Hin.
  - cbn [fallback_features] in H. injection H as <-. now left.
  - cbn [fallback_features] in H.
    destruct (input_of old_inputs key) as [old_val|e]; [|discriminate].
    destruct (input_of new_inputs key) as [new_val|e]; [|discriminate].
    cbn [bind] in H. destruct (IH _ H f Hin) as [Hacc|Hkeys].
    + destruct (significant _); [|now left].
      apply in_app_or in Hacc as [Hacc|[<-|[]]]; [now left|].
      right. now left.
    + right. now right.
Qed.

(** The fallback loop raises nothing but [KeyError], and only at a key
    that one of the inputs lacks. *)
Lemma fallback_features_raises
  (keys : list string) (old_inputs new_inputs : list (string * number))
  (acc : list Feature) (e : exn) :
  fallback_features keys old_inputs new_inputs acc = Raise e ->
  e = KeyError /\
  exists key, In key keys /\
              (has_key key old_inputs = false \/ has_key key new_inputs = false).
Proof.
  revert acc. induction keys as [|key keys IH]; intros acc H.
  - discriminate.
  - cbn [fallback_features] in H. unfold input_of, has_key in *.
    destruct (lookup key old_inputs) as [old_val|] eqn:Hold; cbn [bind] in H.
    2:{ injection H as <-. split; [reflexivity|].
        exists key. rewrite Hold. split; [now left|now left]. }
    destruct (lookup key new_inputs) as [new_val|] eqn:Hnew; cbn [bind] in H.
    2:{ injection H as <-. split; [reflexivity|].
        exists key. rewrite Hnew. split; [now left|now right]. }
    destruct (IH _ H) as [He [k [Hk Hlack]]].
    split; [exact He|]. exists k. split; [now right|exact Hlack].
Qed.

(** C10: in fallback mode, on a call after the first with every key of the
    old inputs also a key of the new inputs, the call does not raise
    [KeyError], and every feature of an evidence record it returns is named
    after a key of the old inputs; a key of the new inputs only names no
    feature. *)
Theorem fallback_features_from_old_inputs
  (env : Ambient) (self : AttributionEngine) (previous current_state : State)
  (log : list event) :
  explainer self = None ->
  previous_state self = Some previous ->
  (forall key, In key (map fst (inputs previous)) ->
               has_key key (inputs current_state) = true) ->
  (forall e self' log',
      analyze_change env self current_state log = (Raise e, self', log') ->
      e <> KeyError) /\
  (forall evidence self' log',
      analyze_change env self current_state log
      = (Ok (Some evidence), self', log') ->
      exists features,
        lookup "features_used" evidence
        = Some (VList (map feature_value features)) /\
        (forall f, In f features ->
                   In (name f) (map fst (inputs previous))) /\
        (forall key, In key (map fst (inputs current_state)) ->
                     ~ In key (map fst (inputs previous)) ->
                     ~ In key (map name features))).
Proof.
  intros Hfallback Hprev Hkeys.
  assert (Hfrom : forall features,
             fallback_features (map fst (inputs previous)) (inputs previous)
               (inputs current_state) [] = Ok features ->
             forall f, In f (normalize_attributions features) ->
                       In (name f) (map fst (inputs previous))).
  { intros features Hf f Hin. apply (in_map name) in Hin.
    rewrite normalize_attributions_names in Hin.
    apply in_map_iff in Hin as [g [Hg Hin]]. rewrite <- Hg.
    destruct (fallback_features_names _ _ _ _ _ Hf g Hin) as [[]|H].
    exact H. }
  unfold analyze_change, compute_features. rewrite Hprev, Hfallback.
  destruct (insignificant_change (price previous) (price current_state))
    as [[|]|e0] eqn:Hs.
  - split; intros; discriminate.
  - destruct (fallback_features (map fst (inputs previous)) (inputs previous)
                (inputs current_state) []) as [features|e1] eqn:Hf.
    + destruct (attribution_sum_rejected (normalize_attributions features)).
      * split; intros; discriminate.
      * split; [intros; discriminate|].
        intros evidence self' log' H. injection H as <- _ _.
        exists (normalize_attributions features).
        split; [reflexivity|]. split; [now apply Hfrom|].
        intros key _ Hnew Hin. apply Hnew.
        apply in_map_iff in Hin as [f [<- Hin]]. now apply (Hfrom features).
    + split; [|intros; discriminate].
      intros e self' log' H. injection H as <- _ _.
      apply fallback_features_raises in Hf as [_ [key [Hkey [Hlack|Hlack]]]].
      * apply lookup_key in Hkey as [v Hv]. unfold has_key in Hlack.
        rewrite Hv in Hlack. discriminate.
      * rewrite (Hkeys key Hkey) in Hlack. discriminate.
  - split; [|intros; discriminate].
    intros e self' log' H. injection H as <- _ _.
    apply insignificant_change_raises in Hs. rewrite Hs. discriminate.
Qed.

(** The call from [old_state_1] to [widened_state_1] in fallback mode: the
    one feature is the input that changed; the input that is new names
    none. *)
Example fallback_features_of_widened :
  match compute_features engine_1 old_state_1 widened_state_1 with
  | Ok features => map name (normalize_attributions features)
  | Raise _ => []
  end = ["raw_material_cost"] /\
  map fst (inputs old_state_1) = ["raw_material_cost"; "demand"] /\
  map fst (inputs widened_state_1)
  = ["raw_material_cost"; "demand"; "inventory_level"].
Proof. repeat split. Qed.

Lemma fallback_features_from_old_inputs_witness :
  In "inventory_level" (map fst (inputs widened_state_1)) /\
  ~ In "inventory_level" (map fst (inputs old_state_1)) /\
  match analyze_change env_1 engine_1 widened_state_1 [] with
  | (Ok (Some evidence), _, _) =>
      exists features,
        lookup "features_used" evidence
        = Some (VList (map feature_value features)) /\
        (forall f, In f features ->
                   In (name f) (map fst (inputs old_state_1))) /\
        (forall key, In key (map fst (inputs widened_state_1)) ->
                     ~ In key (map fst (inputs old_state_1)) ->
                     ~ In key (map name features))
  | _ => False
  end.
Proof.
  split; [cbn; tauto|].
  split; [cbn; intros [H|[H|[]]]; discriminate|].
  assert (Hkeys : forall key,
             In key (map fst (inputs old_state_1)) ->
             has_key key (inputs widened_state_1) = true).
  { intros key Hkey. cbn in Hkey. destruct Hkey as [<-|[<-|[]]]; reflexivity. }
  pose proof (proj2 (fallback_features_from_old_inputs env_1 engine_1
                       old_state_1 widened_state_1 [] eq_refl eq_refl Hkeys))
    as H.
  destruct (analyze_change env_1 engine_1 widened_state_1 [])
    as [[[[evidence|]|e] self'] log'] eqn:Hcall.
  - exact (H evidence self' log' eq_refl).
  - vm_compute in Hcall. discriminate.
  - vm_compute in Hcall. discriminate.
Defined.
(** ** Validation and refusal *)

Section RefusalFacts.
Variable format_value : value -> string.
Variable str_title : string -> string.

Lemma validate_evidence_missing
  (evidence : dict) (log : list event) (field : string) :
  In field required_fields -> has_key field evidence = false ->
  exists log', validate_evidence evidence log = (false, log').
Proof.
  intros Hin Hmissing. unfold validate_evidence.
  destruct (find _ required_fields) as [found|] eqn:Hfind.
  - eexists. reflexivity.
  - apply (find_none _ _ Hfind) in Hin. cbv beta in Hin.
    rewrite Hmissing in Hin. discriminate.
Qed.

Lemma py_eq_str (v : value) (s : string) : py_eq v (VStr s) = true -> v = VStr s.
Proof.
  destruct v; cbn [py_eq]; try discriminate.
  intros H. apply String.eqb_eq in H. now subst.
Qed.

Lemma validate_evidence_method (evidence : dict) (log log' : list event) :
  validate_evidence evidence log = (true, log') ->
  lookup "xai_method" evidence = Some (VStr "SHAP").
Proof.
  unfold validate_evidence.
  destruct (find _ required_fields); [discriminate|].
  destruct (lookup "confidence_score" evidence) as [[]|]; try discriminate;
    (destruct (negb _) eqn:Hm; [discriminate|]; intros _;
     apply negb_false_iff, py_eq_str in Hm;
     unfold dict_get in Hm;
     destruct (lookup "xai_method" evidence); [now subst|discriminate]).
Qed.

Lemma generate_explanations_refused (evidence : dict) (log log' : list event) :
  validate_evidence evidence log = (false, log') ->
  generate_explanations format_value str_title evidence log
  = (Ok refusal_payload, log').
Proof. intros H. unfold generate_explanations. now rewrite H. Qed.

(** C5: an evidence record that lacks one of the nine required fields is
    answered by the refusal: both texts are the fixed refusal string and the
    error field is set. *)
Theorem missing_field_refused
  (evidence : dict) (log : list event) (field : string) :
  In field [ "old_price"; "new_price"; "currency"; "model_version";
             "xai_method"; "time_window"; "features_used";
             "confidence_score"; "safety_flags" ] ->
  has_key field evidence = false ->
  exists payload log',
    generate_explanations format_value str_title evidence log
    = (Ok payload, log') /\
    lookup "customer_text" payload
    = Some (VStr "Explanation unavailable due to data validation failure.") /\
    lookup "regulator_text" payload
    = Some (VStr "Explanation unavailable due to data validation failure.") /\
    lookup "error" payload = Some (VStr "Validation Failed").
Proof.
  intros Hin Hmissing.
  assert (Hreq : In field required_fields).
  { unfold required_fields. cbn [In] in *. intuition. }
  destruct (validate_evidence_missing evidence log field Hreq Hmissing)
    as [log' Hv].
  exists refusal_payload, log'. split.
  - now apply generate_explanations_refused.
  - repeat split.
Qed.

(** C6: an evidence record whose [xai_method] is not the accepted tag
    ["SHAP"] is answered by the refusal, whatever its other fields are. *)
Theorem wrong_method_refused (evidence : dict) (log : list event) :
  lookup "xai_method" evidence <> Some (VStr "SHAP") ->
  exists log',
    generate_explanations format_value str_title evidence log
    = (Ok refusal_payload, log').
Proof.
  intros Hmethod.
  destruct (validate_evidence evidence log) as [[|] log'] eqn:Hv.
  - apply validate_evidence_method in Hv. contradiction.
  - exists log'. now apply generate_explanations_refused.
Qed.
End RefusalFacts.

Lemma missing_field_refused_witness :
  exists payload log',
    generate_explanations plain_format plain_title evidence_without_method []
    = (Ok payload, log') /\
    lookup "customer_text" payload
    = Some (VStr "Explanation unavailable due to data validation failure.") /\
    lookup "regulator_text" payload
    = Some (VStr "Explanation unavailable due to data validation failure.") /\
    lookup "error" payload = Some (VStr "Validation Failed").
Proof.
  apply (missing_field_refused plain_format plain_title
           evidence_without_method [] "xai_method").
  - cbn [In]. intuition.
  - reflexivity.
Defined.

Lemma wrong_method_refused_witness :
  exists log',
    generate_explanations plain_format plain_title tampered_evidence []
    = (Ok refusal_payload, log').
Proof.
  apply (wrong_method_refused plain_format plain_title tampered_evidence []).
  discriminate.
Defined.

(** ** Validation and the audit trail of the explainer *)

Lemma find_required_none (evidence : dict) :
  find (fun field => negb (has_key field evidence)) required_fields = None <->
  Forall (fun field => has_key field evidence = true) required_fields.
Proof.
  induction required_fields as [|field fields IH]; cbn [find].
  - split; [constructor|reflexivity].
  - destruct (has_key field evidence) eqn:E; cbn [negb].
    + rewrite IH. split; [now constructor|now inversion 1].
    + split; [discriminate|]. inversion 1. congruence.
Qed.

Lemma py_eq_str_refl (s : string) : py_eq (VStr s) (VStr s) = true.
Proof. apply String.eqb_refl. Qed.

(** What a call of [validate_evidence] does to the audit log. *)
Lemma validate_evidence_log (evidence : dict) (log : list event) :
  (fst (validate_evidence evidence log) = true ->
   snd (validate_evidence evidence log) = log) /\
  (fst (validate_evidence evidence log) = false ->
   exists reason,
     snd (validate_evidence evidence log)
     = (log ++ [("GENERATION_REFUSED", VDict [("reason", VStr reason)])])%list).
Proof.
  unfold validate_evidence, log_event, refused.
  destruct (find _ required_fields) as [field|].
  - split; [discriminate|]. intros _. now eexists.
  - destruct (lookup "confidence_score" evidence) as [[]|];
      try (split; [discriminate|intros _; now eexists]);
      (destruct (negb _); split;
       [discriminate|intros _; now eexists|reflexivity|discriminate]).
Qed.

Section ExplainerCases.
Variable format_value : value -> string.
Variable str_title : string -> string.

(** The three outcomes of [generate_explanations]. *)
Lemma generate_explanations_cases (evidence : dict) (log : list event) :
  (fst (validate_evidence evidence log) = false /\
   generate_explanations format_value str_title evidence log
   = (Ok refusal_payload, snd (validate_evidence evidence log))) \/
  (fst (validate_evidence evidence log) = true /\
   exists raw_customer raw_regulator flags event_id,
     format_explanation format_value str_title evidence "customer"
     = Ok raw_customer /\
     format_explanation format_value str_title evidence "regulator"
     = Ok raw_regulator /\
     lookup "safety_flags" evidence = Some (VDict flags) /\
     lookup "event_id" evidence = Some event_id /\
     generate_explanations format_value str_title evidence log
     = (Ok [ ("customer_text", VStr (safety_filter raw_customer flags));
             ("regulator_text", VStr (safety_filter raw_regulator flags));
             ("evidence_used", event_id) ],
        log_event log "TEXT_GENERATED"
          (VDict [ ("customer_text", VStr (safety_filter raw_customer flags));
                   ("regulator_text",
                    VStr (safety_filter raw_regulator flags));
                   ("evidence_used", event_id) ]))) \/
  (fst (validate_evidence evidence log) = true /\
   exists e,
     generate_explanations format_value str_title evidence log
     = (Raise e, log)).
Proof.
  pose proof (validate_evidence_log evidence log) as [Hlog _].
  cbv beta delta [generate_explanations].
  destruct (validate_evidence evidence log) as [[|] log1]; cbn [fst snd negb] in *.
  - rewrite (Hlog eq_refl). right.
    destruct (format_explanation format_value str_title evidence "customer")
      as [raw_customer|e]; cbn [bind]; [|right; split; [reflexivity|now exists e]].
    destruct (format_explanation format_value str_title evidence "regulator")
      as [raw_regulator|e]; cbn [bind]; [|right; split; [reflexivity|now exists e]].
    unfold getitem.
    destruct (lookup "safety_flags" evidence) as [flags|]; cbn [bind];
      [|right; split; [reflexivity|now eexists]].
    destruct flags as [| | | | |flags];
      try (right; split; [reflexivity|now eexists]).
    destruct (lookup "event_id" evidence) as [event_id|]; cbn [bind];
      [|right; split; [reflexivity|now eexists]].
    left. split; [reflexivity|].
    exists raw_customer, raw_regulator, flags, event_id.
    repeat split; reflexivity.
  - left. split; reflexivity.
Qed.
End ExplainerCases.

(** ** Rendering well-formed evidence *)

Lemma bind_returns {A B : Type} (m : res A) (k : A -> res B) (a : A) :
  m = Ok a -> (exists b, k a = Ok b) -> exists b, bind m k = Ok b.
Proof. intros -> H. exact H. Qed.

Lemma getitem_lookup (d : dict) (key : string) (v : value) :
  lookup key d = Some v -> getitem d key = Ok v.
Proof. intros H. unfold getitem. now rewrite H. Qed.

Lemma mapM_returns {A B : Type} (f : A -> res B) (l : list A) :
  Forall (fun x => exists y, f x = Ok y) l -> exists r, mapM f l = Ok r.
Proof.
  induction 1 as [|x l [y Hy] _ [r Hr]]; [now exists []|].
  exists (y :: r). cbn [mapM]. now rewrite Hy, Hr.
Qed.

Lemma py_gt_numeric (a b : value) :
  numeric a -> numeric b -> exists r, py_gt a b = Ok r.
Proof.
  intros [x Hx] [y Hy].
  destruct a, b; try discriminate; cbn [py_gt as_number bind]; eauto.
Qed.

Lemma numeric_int (z : Z) : numeric (VNum (Int z)).
Proof. now eexists. Qed.

Lemma numeric_float (q : Q) : numeric (VNum (Float q)).
Proof. now eexists. Qed.

Lemma sorted_by_attribution_perm (items sorted : list value) :
  sorted_by_attribution items sorted -> Permutation sorted items.
Proof.
  intros [keyed [<- [_ [keyed' [<- [Hperm _]]]]]].
  now apply Permutation_map.
Qed.

Lemma sorted_features_of_returns (fs : list value) :
  Forall well_formed_feature fs ->
  exists sorted,
    sorted_features_of (VList fs) = Ok sorted /\
    Forall well_formed_feature sorted.
Proof.
  intros Hfs.
  assert (Hkeys : exists keyed,
             mapM (fun x => k <- abs_attribution x ;; Ok (k, x)) fs = Ok keyed).
  { apply mapM_returns. eapply Forall_impl; [|exact Hfs].
    intros f [d [a [c [n [-> [Ha [[q Hq] _]]]]]]].
    exists (Qabs q, VDict d).
    unfold abs_attribution, py_abs. cbn [subscript].
    rewrite (getitem_lookup _ _ _ Ha). cbn [bind]. now rewrite Hq. }
  destruct Hkeys as [keyed Hkeyed].
  exists (map snd (sort_desc keyed)).
  assert (Hs : sorted_features_of (VList fs) = Ok (map snd (sort_desc keyed))).
  { unfold sorted_features_of. cbn [iterate bind]. now rewrite Hkeyed. }
  split; [exact Hs|].
  apply sorted_features_of_spec in Hs as [items [Hitems Hsorted]].
  cbn [iterate] in Hitems. apply Ok_inj in Hitems. subst items.
  apply sorted_by_attribution_perm in Hsorted.
  eapply Permutation_Forall; [symmetry; exact Hsorted|exact Hfs].
Qed.

Lemma get_confidence_label_returns (score : value) :
  numeric score -> exists label, get_confidence_label score = Ok label.
Proof.
  intros [q Hq]. unfold get_confidence_label, py_ge_float. rewrite Hq.
  cbn [bind]. destruct (Qle_bool (80 # 100) q); [now eexists|].
  destruct (Qle_bool (50 # 100) q); now eexists.
Qed.

Section ComposeFacts.
Variable format_value : value -> string.
Variable str_title : string -> string.

Lemma feature_line_returns (audience : string) (f : value) :
  well_formed_feature f ->
  exists line, feature_line format_value str_title audience f = Ok line.
Proof.
  intros [d [a [c [n [-> [Ha [[q Hq] [Hc [Hcn Hn]]]]]]]]].
  unfold feature_line. cbn [subscript].
  rewrite (getitem_lookup _ _ _ Ha), (getitem_lookup _ _ _ Hc),
    (getitem_lookup _ _ _ Hn).
  cbn [bind]. rewrite Hq. cbn [bind].
  destruct (audience =? "regulator"); [now eexists|].
  destruct (py_gt_numeric c (VNum (Int 0)) Hcn (numeric_int 0)) as [up Hup].
  rewrite Hup. cbn [bind]. now eexists.
Qed.

Lemma format_explanation_returns (evidence : dict) (audience : string) :
  well_formed_evidence evidence ->
  exists rendered,
    format_explanation format_value str_title evidence audience = Ok rendered.
Proof.
  intros [[old_price [Hold Hnold]] [[new_price [Hnew Hnnew]] [[cur Hcur]
            [[w [from_date [to_date [Hw [Hfrom Hto]]]]] [[m Hm]
            [[conf [Hconf Hnconf]] [[fs [Hfs Hwf]] _]]]]]]].
  destruct (sorted_features_of_returns fs Hwf) as [sorted [Hsorted Hwfs]].
  destruct (py_gt_numeric new_price old_price Hnnew Hnold) as [up Hup].
  destruct (mapM_returns (feature_line format_value str_title audience) sorted)
    as [lines Hlines].
  { eapply Forall_impl; [|exact Hwfs]. apply feature_line_returns. }
  destruct (get_confidence_label_returns conf Hnconf) as [label Hlabel].
  unfold format_explanation.
  eapply bind_returns; [exact (getitem_lookup _ _ _ Hold)|]. cbv beta zeta.
  eapply bind_returns; [exact (getitem_lookup _ _ _ Hnew)|]. cbv beta zeta.
  eapply bind_returns; [exact (getitem_lookup _ _ _ Hcur)|]. cbv beta zeta.
  eapply bind_returns; [exact (getitem_lookup _ _ _ Hw)|]. cbv beta zeta.
  eapply bind_returns; [exact (getitem_lookup _ _ _ Hfrom)|]. cbv beta zeta.
  eapply bind_returns; [exact (getitem_lookup _ _ _ Hto)|]. cbv beta zeta.
  eapply bind_returns; [exact (getitem_lookup _ _ _ Hm)|]. cbv beta zeta.
  eapply bind_returns; [exact (getitem_lookup _ _ _ Hconf)|]. cbv beta zeta.
  eapply bind_returns; [exact (getitem_lookup _ _ _ Hfs)|]. cbv beta zeta.
  eapply bind_returns; [exact Hsorted|]. cbv beta zeta.
  eapply bind_returns; [exact Hup|]. cbv beta zeta.
  eapply bind_returns; [exact Hlines|]. cbv beta zeta.
  eapply bind_returns; [exact Hlabel|]. cbv beta zeta.
  now eexists.
Qed.

(** On well-formed evidence [generate_explanations] returns: the refusal if
    the validation fails, the two texts and the event id otherwise. *)
Lemma generate_explanations_returns (evidence : dict) (log : list event) :
  well_formed_evidence evidence ->
  exists payload log',
    generate_explanations format_value str_title evidence log
    = (Ok payload, log') /\
    if fst (validate_evidence evidence log)
    then exists customer regulator id,
        lookup "event_id" evidence = Some id /\
        payload = [ ("customer_text", VStr customer);
                    ("regulator_text", VStr regulator);
                    ("evidence_used", id) ]
    else payload = refusal_payload.
Proof.
  intros Hwf.
  destruct (format_explanation_returns evidence "customer" Hwf) as [c Hc].
  destruct (format_explanation_returns evidence "regulator" Hwf) as [r Hr].
  destruct Hwf as [_ [_ [_ [_ [_ [_ [_ [[flags Hflags] [id Hid]]]]]]]]].
  unfold generate_explanations.
  destruct (validate_evidence evidence log) as [[|] log']; cbn [negb fst].
  - rewrite Hc, Hr. cbn [bind].
    rewrite (getitem_lookup _ _ _ Hflags). cbn [bind].
    rewrite (getitem_lookup _ _ _ Hid). cbn [bind].
    do 2 eexists. split; [reflexivity|].
    do 3 eexists. split; [exact Hid|reflexivity].
  - do 2 eexists. split; reflexivity.
Qed.
End ComposeFacts.

(** ** From the engine to the explainer *)

Lemma feature_value_well_formed (f : Feature) :
  well_formed_feature (feature_value f).
Proof.
  unfold feature_value, well_formed_feature.
  eexists _, _, _, _. split; [reflexivity|].
  repeat split; try apply numeric_float.
Qed.

Lemma evidence_object_well_formed
  (env : Ambient) (old_price new_price : number) (features : list Feature) :
  well_formed_evidence (evidence_object env old_price new_price features).
Proof.
  unfold well_formed_evidence. repeat split.
  - eexists. split; [reflexivity|]. destruct old_price; now eexists.
  - eexists. split; [reflexivity|]. destruct new_price; now eexists.
  - eexists. reflexivity.
  - eexists _, _, _. repeat split.
  - eexists. reflexivity.
  - eexists. split; [reflexivity|]. apply numeric_float.
  - eexists. split; [reflexivity|].
    apply Forall_forall. intros v Hv. apply in_map_iff in Hv as [f [<- _]].
    apply feature_value_well_formed.
  - eexists. reflexivity.
  - eexists. reflexivity.
Qed.

Lemma evidence_object_validates
  (env : Ambient) (old_price new_price : number) (features : list Feature)
  (log : list event) :
  validate_evidence (evidence_object env old_price new_price features) log
  = (true, log).
Proof. reflexivity. Qed.

(** An evidence record returned by [analyze_change] is one built by
    [evidence_object]. *)
Lemma analyze_change_evidence
  (env : Ambient) (self self' : AttributionEngine) (current_state : State)
  (log log' : list event) (evidence : dict) :
  analyze_change env self current_state log = (Ok (Some evidence), self', log') ->
  exists old_price new_price features,
    evidence = evidence_object env old_price new_price features.
Proof.
  unfold analyze_change.
  destruct (previous_state self) as [previous|]; [|discriminate].
  destruct (insignificant_change _ _) as [[|]|e]; try discriminate.
  destruct (compute_features self previous current_state) as [features|e];
    [|discriminate].
  destruct (attribution_sum_rejected _); [discriminate|].
  intros H. injection H as <- _ _. now eexists _, _, _.
Qed.

Lemma compute_features_returns
  (self : AttributionEngine) (previous current_state : State) :
  attribution_defined self previous current_state ->
  exists features, compute_features self previous current_state = Ok features.
Proof.
  unfold attribution_defined, compute_features.
  destruct (explainer self) as [explain|].
  - intros [sv [-> Hlen]]. cbn [bind].
    destruct (shap_features_ok (feature_names self) 0 sv (inputs previous)
                (inputs current_state) [] Hlen) as [features H].
    now exists features.
  - intros Hkeys.
    destruct (fallback_features_ok (map fst (inputs previous))
                (inputs previous) (inputs current_state) []
                (fun key H => H) Hkeys) as [features [H _]].
    now exists features.
Qed.

Section PipelineFacts.
Variable format_value : value -> string.
Variable str_title : string -> string.

(** C9: an evidence record returned by [analyze_change] has the nine
    required fields, a confidence score that is not [None] and the accepted
    method tag, and [validate_evidence] accepts it, logging nothing.  So
    [generate_explanations] never answers it with the refusal: a call that
    returns gives the two texts with the event id of the record, after one
    TEXT_GENERATED event that carries them and no GENERATION_REFUSED event;
    a call that raises has logged nothing. *)
Theorem analyze_change_evidence_accepted
  (env : Ambient) (self self' : AttributionEngine) (current_state : State)
  (log log' : list event) (evidence : dict) :
  analyze_change env self current_state log = (Ok (Some evidence), self', log') ->
  Forall (fun field => has_key field evidence = true)
    [ "old_price"; "new_price"; "currency"; "model_version"; "xai_method";
      "time_window"; "features_used"; "confidence_score"; "safety_flags" ] /\
  (exists c, lookup "confidence_score" evidence = Some c /\ c <> VNone) /\
  lookup "xai_method" evidence = Some (VStr "SHAP") /\
  (forall log2, validate_evidence evidence log2 = (true, log2)) /\
  (forall log2,
      match generate_explanations format_value str_title evidence log2 with
      | (Ok payload, log3) =>
          (exists customer regulator,
              payload = [ ("customer_text", VStr customer);
                          ("regulator_text", VStr regulator);
                          ("evidence_used", VStr (uuid4 env)) ]) /\
          log3 = (log2 ++ [("TEXT_GENERATED", VDict payload)])%list
      | (Raise _, log3) => log3 = log2
      end).
Proof.
  intros Hcall.
  apply analyze_change_evidence in Hcall
    as [old_price [new_price [features ->]]].
  split; [repeat constructor|].
  split; [eexists; split; [reflexivity|discriminate]|].
  split; [reflexivity|].
  split; [intros log2; apply evidence_object_validates|].
  intros log2.
  destruct (generate_explanations_cases format_value str_title
              (evidence_object env old_price new_price features) log2)
    as [[Hv _]|[[_ [c [r [flags [id [_ [_ [_ [Hid H]]]]]]]]]|[_ [e H]]]].
  - rewrite evidence_object_validates in Hv. discriminate.
  - rewrite H.
    assert (Hid' : lookup "event_id"
                     (evidence_object env old_price new_price features)
                   = Some (VStr (uuid4 env))) by reflexivity.
    rewrite Hid' in Hid. injection Hid as <-.
    split; [|reflexivity]. now eexists _, _.
  - rewrite H. reflexivity.
Qed.
End PipelineFacts.

Lemma analyze_change_evidence_accepted_witness :
  exists evidence self' log',
    analyze_change env_1 engine_1 new_state_1 []
    = (Ok (Some evidence), self', log') /\
    (Forall (fun field => has_key field evidence = true)
       [ "old_price"; "new_price"; "currency"; "model_version"; "xai_method";
         "time_window"; "features_used"; "confidence_score"; "safety_flags" ] /\
     (exists c, lookup "confidence_score" evidence = Some c /\ c <> VNone) /\
     lookup "xai_method" evidence = Some (VStr "SHAP") /\
     (forall log2, validate_evidence evidence log2 = (true, log2)) /\
     (forall log2,
         match generate_explanations plain_format plain_title evidence log2 with
         | (Ok payload, log3) =>
             (exists customer regulator,
                 payload = [ ("customer_text", VStr customer);
                             ("regulator_text", VStr regulator);
                             ("evidence_used", VStr (uuid4 env_1)) ]) /\
             log3 = (log2 ++ [("TEXT_GENERATED", VDict payload)])%list
         | (Raise _, log3) => log3 = log2
         end)).
Proof.
  let outcome :=
    eval vm_compute in (analyze_change env_1 engine_1 new_state_1 []) in
  match outcome with
  | (Ok (Some ?evidence), ?self', ?log') =>
      assert (Hcall : analyze_change env_1 engine_1 new_state_1 []
                      = (Ok (Some evidence), self', log'))
        by (vm_compute; reflexivity);
      exists evidence, self', log'
  end.
  split; [exact Hcall|].
  exact (analyze_change_evidence_accepted plain_format plain_title
           env_1 engine_1 _ new_state_1 [] _ _ Hcall).
Defined.

(** The call of the witness above returns the two texts. *)
Example generate_explanations_of_spike :
  match analyze_change env_1 engine_1 new_state_1 [] with
  | (Ok (Some evidence), _, _) =>
      match generate_explanations plain_format plain_title evidence [] with
      | (Ok payload, [(event_type, _)]) =>
          (map fst payload, event_type)
      | _ => ([], EmptyString)
      end
  | _ => ([], EmptyString)
  end
  = (["customer_text"; "regulator_text"; "evidence_used"], "TEXT_GENERATED").
Proof. vm_compute. reflexivity. Qed.

(** C2: the core raises where the claim says that it never does.  An
    evidence record with the nine required fields and no [event_id] passes
    the validation, which does not ask for the field, and
    [generate_explanations] then raises [KeyError] at
    [evidence["event_id"]]; in fallback mode a new state that lacks an input
    of the old state makes [analyze_change] raise [KeyError] at
    [new_inputs[key]], where the explainer path reads the same inputs with
    [get(name, 0)]. *)
Lemma core_raises_key_error :
  fst (validate_evidence evidence_without_id []) = true /\
  fst (generate_explanations plain_format plain_title evidence_without_id [])
  = Raise KeyError /\
  fst (fst (analyze_change env_1 engine_1 partial_state_1 [])) = Raise KeyError.
Proof. repeat split; vm_compute; reflexivity. Qed.
(** ** What the validation accepts, and the audit trail of the explainer *)

(** X1: [validate_evidence] accepts an evidence record exactly when the nine
    required fields are present, the confidence score is not [None] and the
    method tag is the string SHAP; nothing else about the record is
    looked at. *)
Theorem validate_evidence_accepts_iff (evidence : dict) (log : list event) :
  fst (validate_evidence evidence log) = true <->
  Forall (fun field => has_key field evidence = true) required_fields /\
  (exists score,
      lookup "confidence_score" evidence = Some score /\ score <> VNone) /\
  lookup "xai_method" evidence = Some (VStr "SHAP").
Proof.
  unfold validate_evidence.
  destruct (find _ required_fields) as [field|] eqn:Hfind.
  - split; [discriminate|]. intros [Hall _].
    apply find_required_none in Hall. congruence.
  - apply find_required_none in Hfind.
    assert (Hmethod : py_eq (dict_get evidence "xai_method" VNone) (VStr "SHAP")
                      = true <->
                      lookup "xai_method" evidence = Some (VStr "SHAP")).
    { unfold dict_get. split.
      - intros H. apply py_eq_str in H.
        destruct (lookup "xai_method" evidence); congruence.
      - intros ->. apply py_eq_str_refl. }
    destruct (py_eq (dict_get evidence "xai_method" VNone) (VStr "SHAP")).
    + destruct (lookup "confidence_score" evidence) as [score|];
        [destruct score|]; cbn [negb fst].
      all: split; [intros H; try discriminate H|intros [_ [[sc [Hs Hn]] _]]].
      all: try reflexivity.
      all: try (split; [exact Hfind|split; [|now apply Hmethod]];
                eexists; split; [reflexivity|discriminate]).
      all: congruence.
    + assert (Hne : lookup "xai_method" evidence <> Some (VStr "SHAP")).
      { intros H. apply Hmethod in H. discriminate. }
      destruct (lookup "confidence_score" evidence) as [score|];
        [destruct score|]; cbn [negb fst].
      all: split; [discriminate|intros [_ [_ H]]; contradiction].
Qed.

(** X2: a call of [validate_evidence] that accepts leaves the audit log as it
    was; a call that rejects appends exactly one event, of type
    GENERATION_REFUSED, whose details are a reason. *)
Theorem validate_evidence_audit (evidence : dict) (log : list event) :
  let (valid, log') := validate_evidence evidence log in
  if valid then log' = log
  else exists reason,
      log' = (log ++ [("GENERATION_REFUSED",
                       VDict [("reason", VStr reason)])])%list.
Proof.
  pose proof (validate_evidence_log evidence log) as [H1 H2].
  destruct (validate_evidence evidence log) as [[|] log']; cbn [fst snd] in *.
  - now apply H1.
  - now apply H2.
Qed.

Section ExplainerAudit.
Variable format_value : value -> string.
Variable str_title : string -> string.

(** X3: the audit trail of [generate_explanations].  A call returns the
    refusal payload after one GENERATION_REFUSED event, or returns the two
    texts and the event id after one TEXT_GENERATED event that carries
    exactly the payload returned, or raises and leaves no event: a text is
    never returned without being logged, and never logged without being
    returned. *)
Theorem generate_explanations_audit (evidence : dict) (log : list event) :
  let (outcome, log') :=
    generate_explanations format_value str_title evidence log in
  match outcome with
  | Ok payload =>
      if fst (validate_evidence evidence log)
      then (exists customer regulator id,
               lookup "event_id" evidence = Some id /\
               payload = [ ("customer_text", VStr customer);
                           ("regulator_text", VStr regulator);
                           ("evidence_used", id) ]) /\
           log' = (log ++ [("TEXT_GENERATED", VDict payload)])%list
      else payload = refusal_payload /\
           exists reason,
             log' = (log ++ [("GENERATION_REFUSED",
                              VDict [("reason", VStr reason)])])%list
  | Raise _ => fst (validate_evidence evidence log) = true /\ log' = log
  end.
Proof.
  pose proof (validate_evidence_log evidence log) as [_ Hlog].
  destruct (generate_explanations_cases format_value str_title evidence log)
    as [[Hv H]|[[Hv [c [r [flags [id [_ [_ [_ [Hid H]]]]]]]]]|[Hv [e H]]]];
    rewrite H, Hv.
  - split; [reflexivity|]. now apply Hlog.
  - split; [|reflexivity]. eexists _, _, _. split; [exact Hid|reflexivity].
  - now split.
Qed.
End ExplainerAudit.

(** ** Marking reaches every occurrence *)

Section Marked.
Context {A : Type}.
Variable eqb : A -> A -> bool.
Hypothesis eqb_spec : forall a b, reflect (a = b) (eqb a b).
Local Open Scope list_scope.

Local Abbreviation startswith := (startswith eqb).
Local Abbreviation replace := (replace eqb).

(** Every suffix of [s] that starts with [p] starts with [p ++ m]. *)
Local Abbreviation all_marked p m s :=
  (forall u v, s = u ++ v ->
               startswith v p = true -> startswith v (p ++ m) = true).

Lemma startswith_app_cases (x r q : list A) :
  startswith (x ++ r) q = true ->
  (exists q', x = q ++ q') \/
  (exists q', q = x ++ q' /\ q' <> [] /\ startswith r q' = true).
Proof.
  revert q. induction x as [|c x IH]; intros q H.
  - destruct q as [|b q]; [left; now exists []|].
    right. exists (b :: q). repeat split; [discriminate|exact H].
  - destruct q as [|b q]; [left; now exists (c :: x)|].
    cbn [app PyStr.startswith] in H. apply andb_true_iff in H as [Hbc H].
    destruct (eqb_spec b c) as [->|]; [|discriminate].
    destruct (IH q H) as [[q' ->]|[q' [-> [Hq' Hr]]]].
    + left. now exists q'.
    + right. now exists q'.
Qed.

Lemma all_marked_cons (p m : list A) (c : A) (s : list A) :
  (startswith (c :: s) p = true -> startswith (c :: s) (p ++ m) = true) ->
  all_marked p m s -> all_marked p m (c :: s).
Proof.
  intros Hhead Htail [|c' u] v E; cbn [app] in E.
  - subst v. exact Hhead.
  - injection E as _ E. now apply (Htail u).
Qed.

Lemma all_marked_skip (p m x s : list A) :
  all_marked p m (x ++ s) -> all_marked p m s.
Proof. intros H u v ->. apply (H (x ++ u)). now rewrite app_assoc. Qed.

Lemma all_marked_app (p m x r : list A) :
  (forall u v, x = u ++ v -> v <> [] ->
               startswith (v ++ r) p = true ->
               startswith (v ++ r) (p ++ m) = true) ->
  all_marked p m r -> all_marked p m (x ++ r).
Proof.
  intros Hx Hr. induction x as [|c x IH]; [exact Hr|].
  cbn [app]. apply all_marked_cons.
  - apply (Hx [] (c :: x)); [reflexivity|discriminate].
  - apply IH. intros u v -> Hv. now apply (Hx (c :: u) v).
Qed.

Lemma all_marked_occurrences (p m s : list A) :
  all_marked p m s -> occurrences_marked p m s.
Proof.
  intros H before after E.
  pose proof (H before (p ++ after) E (startswith_app eqb eqb_spec p after))
    as Hm.
  apply (startswith_split eqb eqb_spec) in Hm.
  set (rest := skipn _ _) in Hm.
  rewrite <- app_assoc in Hm. apply app_inv_head in Hm. now exists rest.
Qed.

Section OnePattern.
Variables (a : A) (p' : list A) (k : A) (m' : list A).
Let p : list A := a :: p'.
Let m : list A := k :: m'.
Hypothesis mark_not_in_pattern : ~ In k p.
Hypothesis pattern_not_in_mark : ~ In a m.

Lemma pattern_nonempty : p <> [].
Proof. discriminate. Qed.

(** A block free of the mark that opens the output opened the input. *)
Lemma replace_ext_prefix (s q : list A) :
  ~ In k q -> startswith (replace s p (p ++ m)) q = true ->
  startswith s q = true.
Proof.
  clear mark_not_in_pattern pattern_not_in_mark.
  revert q. pattern s; revert s;
    apply (@replace_scan_ind A eqb p _ pattern_nonempty);
    [|intros s Hs IH|intros c s Hs IH]; intros q Hk H.
  - rewrite (replace_nil eqb p _ pattern_nonempty) in H. exact H.
  - rewrite (replace_hit eqb p _ s pattern_nonempty Hs) in H.
    rewrite (startswith_split eqb eqb_spec s p Hs).
    rewrite <- app_assoc in H.
    apply startswith_app_cases in H as [[q' ->]|[q' [-> [Hq' Hr]]]].
    + rewrite <- app_assoc. apply (startswith_app eqb eqb_spec).
    + exfalso. destruct q' as [|b q']; [congruence|].
      unfold m in Hr. cbn [app PyStr.startswith] in Hr.
      apply andb_true_iff in Hr as [Hbk _].
      destruct (eqb_spec b k) as [->|]; [|discriminate].
      apply Hk. apply in_or_app. right. now left.
  - rewrite (replace_miss eqb p _ c s pattern_nonempty Hs) in H.
    destruct q as [|b q]; [reflexivity|].
    cbn [PyStr.startswith] in H |- *.
    apply andb_true_iff in H as [Hbc H]. rewrite Hbc. cbn [andb].
    apply IH; [|exact H]. intros Hin. apply Hk. now right.
Qed.

(** Replacing the pattern by the pattern and the mark leaves no occurrence
    of the pattern without the mark. *)
Lemma replace_ext_marks (s : list A) : all_marked p m (replace s p (p ++ m)).
Proof.
  pattern s; revert s;
    apply (@replace_scan_ind A eqb p _ pattern_nonempty);
    [|intros s Hs IH|intros c s Hs IH].
  - rewrite (replace_nil eqb p _ pattern_nonempty).
    intros u v E. symmetry in E. apply app_eq_nil in E as [_ ->]. discriminate.
  - rewrite (replace_hit eqb p _ s pattern_nonempty Hs).
    apply all_marked_app; [|exact IH].
    intros u v E Hv Hstart.
    apply app_eq_app in E as [l [[Ep Ev]|[Eu Em]]].
    + (* [v] starts in the pattern *)
      subst v. destruct u as [|c u].
      * cbn [app] in Ep. rewrite <- Ep.
        apply (startswith_app eqb eqb_spec).
      * exfalso. rewrite <- app_assoc in Hstart.
        apply startswith_app_cases in Hstart as [[q' E]|[q' [E [Hq' Hr]]]].
        -- rewrite E in Ep. apply (f_equal (@List.length A)) in Ep.
           rewrite !length_app in Ep. cbn [List.length] in Ep. lia.
        -- destruct q' as [|b q']; [congruence|].
           unfold m in Hr. cbn [app PyStr.startswith] in Hr.
           apply andb_true_iff in Hr as [Hbk _].
           destruct (eqb_spec b k) as [Hb|]; [|discriminate]. subst b.
           apply mark_not_in_pattern. rewrite E.
           apply in_or_app. right. now left.
    + (* [v] starts in the mark *)
      exfalso. destruct v as [|b v]; [congruence|].
      unfold p in Hstart. cbn [app PyStr.startswith] in Hstart.
      apply andb_true_iff in Hstart as [Hab _].
      destruct (eqb_spec a b) as [Hb|]; [|discriminate]. subst b.
      apply pattern_not_in_mark. rewrite Em.
      apply in_or_app. right. now left.
  - rewrite (replace_miss eqb p _ c s pattern_nonempty Hs).
    apply all_marked_cons; [|exact IH].
    intros H. rewrite <- (replace_miss eqb p (p ++ m) c s pattern_nonempty Hs) in H.
    apply replace_ext_prefix in H; [congruence|exact mark_not_in_pattern].
Qed.
End OnePattern.

Section TwoPatterns.
Variables (a1 : A) (rest1 : list A) (a2 : A) (rest2 : list A).
Variables (k : A) (marks : list A).
Let first : list A := a1 :: rest1.
Let second : list A := a2 :: rest2.
Let mark : list A := k :: marks.
Hypothesis first_foreign : ~ In a1 second.
Hypothesis second_foreign : ~ In a2 first.
Hypothesis mark_not_in_first : ~ In k first.
Hypothesis mark_not_in_second : ~ In k second.
Hypothesis first_not_in_mark : ~ In a1 mark.
Hypothesis second_not_in_mark : ~ In a2 mark.

(** The marks of the first pattern survive the marking of the second. *)
Lemma replace_foreign_marks (s : list A) :
  all_marked first mark s ->
  all_marked first mark (replace s second (second ++ mark)).
Proof.
  assert (Hne : second <> []) by discriminate.
  pattern s; revert s; apply (@replace_scan_ind A eqb second _ Hne);
    [|intros s Hs IH|intros c s Hs IH]; intros H.
  - now rewrite (replace_nil eqb second _ Hne).
  - rewrite (replace_hit eqb second _ s Hne Hs).
    apply all_marked_app.
    + intros u v E Hv Hstart. exfalso.
      destruct v as [|b v]; [congruence|].
      unfold first in Hstart. cbn [app PyStr.startswith] in Hstart.
      apply andb_true_iff in Hstart as [Hab _].
      destruct (eqb_spec a1 b) as [->|]; [|discriminate].
      assert (Hin : In b (second ++ mark)).
      { rewrite E. apply in_or_app. right. now left. }
      apply in_app_or in Hin as [Hin|Hin];
        [now apply first_foreign|now apply first_not_in_mark].
    + apply IH. rewrite (startswith_split eqb eqb_spec s second Hs) in H.
      exact (all_marked_skip _ _ _ _ H).
  - rewrite (replace_miss eqb second _ c s Hne Hs).
    apply all_marked_cons.
    + intros Hstart.
      rewrite <- (replace_miss eqb second (second ++ mark) c s Hne Hs) in Hstart |- *.
      apply (replace_ext_prefix a2 rest2 k marks) in Hstart;
        [|exact mark_not_in_first].
      apply (replace_keeps_prefix eqb eqb_spec a2 rest2 a1 rest1 _
               first_foreign second_foreign).
      * intros Hin. apply in_app_or in Hin as [Hin|Hin];
          [now apply second_foreign|now apply second_not_in_mark].
      * now apply (H [] (c :: s)).
    + apply IH. intros u v ->. apply (H (c :: u)). reflexivity.
Qed.

(** After the two replacements, every occurrence of either pattern is
    followed by the mark. *)
Lemma mark_both_marks (s : list A) :
  occurrences_marked first mark (mark_both eqb first second mark s) /\
  occurrences_marked second mark (mark_both eqb first second mark s).
Proof.
  unfold mark_both. split; apply all_marked_occurrences.
  - apply replace_foreign_marks.
    apply (replace_ext_marks a1 rest1 k marks);
      [exact mark_not_in_first|exact first_not_in_mark].
  - apply (replace_ext_marks a2 rest2 k marks);
      [exact mark_not_in_second|exact second_not_in_mark].
Qed.
End TwoPatterns.
End Marked.

Lemma chars_append (s t : string) : chars (s ++ t) = (chars s ++ chars t)%list.
Proof. induction s as [|c s IH]; [reflexivity|]. cbn. now rewrite <- IH. Qed.

Lemma redact_marks (s : list ascii) :
  occurrences_marked (chars "₹") (chars "~") (redact s) /\
  occurrences_marked (chars "INR") (chars "~") (redact s).
Proof.
  apply (mark_both_marks Ascii.eqb Ascii.eqb_spec
           "226"%char ["130"%char; "185"%char] "I"%char (chars "NR")
           "~"%char []); cbv; intuition discriminate.
Qed.

(** The text after the two replacements of the filter. *)
Lemma redacted_text_marked (x pattern before after : string) :
  pattern = "₹" \/ pattern = "INR" ->
  text (redact (chars x)) = before ++ pattern ++ after ->
  exists rest, after = "~" ++ rest.
Proof.
  intros Hp E.
  apply (f_equal chars) in E.
  rewrite chars_text, !chars_append in E.
  destruct (redact_marks (chars x)) as [H1 H2].
  assert (Hrest : exists rest, chars after = (chars "~" ++ rest)%list).
  { destruct Hp as [-> | ->]; [exact (H1 _ _ E)|exact (H2 _ _ E)]. }
  destruct Hrest as [rest Hrest]. exists (text rest).
  apply (f_equal text) in Hrest. rewrite text_chars in Hrest.
  rewrite Hrest. reflexivity.
Qed.

(** X4: with [hide_exact_costs] set, the text [safety_filter] returns has no
    currency glyph and no currency code INR that is not immediately followed
    by the mark. *)
Theorem safety_filter_marks_every_occurrence
  (x : string) (flags : dict) (pattern before after : string) :
  truthy (dict_get flags "hide_exact_costs" (VBool false)) = true ->
  pattern = "₹" \/ pattern = "INR" ->
  safety_filter x flags = before ++ pattern ++ after ->
  exists rest, after = "~" ++ rest.
Proof.
  intros Hflag Hp E.
  rewrite (safety_filter_on _ _ Hflag) in E.
  exact (redacted_text_marked x pattern before after Hp E).
Qed.

Lemma safety_filter_marks_every_occurrence_witness :
  exists rest, "~100 or INR~ 100" = "~" ++ rest.
Proof.
  apply (safety_filter_marks_every_occurrence
           "Price: ₹100 or INR 100" [("hide_exact_costs", VBool true)]
           "₹" "Price: " "~100 or INR~ 100");
    [reflexivity|now left|reflexivity].
Defined.

(** ** What the returned texts hold *)

Lemma contains_occurrence {A : Type} (eqb : A -> A -> bool)
  (eqb_spec : forall a b, reflect (a = b) (eqb a b)) (before p after : list A) :
  contains eqb (before ++ p ++ after)%list p = true.
Proof.
  apply (contains_app_r eqb), (contains_hit eqb), (startswith_app eqb eqb_spec).
Qed.

Lemma absent_marked (s pattern before after : string) :
  str_contains s pattern = false -> s <> before ++ pattern ++ after.
Proof.
  intros H ->. unfold str_contains in H. rewrite !chars_append in H.
  now rewrite (contains_occurrence Ascii.eqb Ascii.eqb_spec) in H.
Qed.

Section ReturnedTexts.
Variable format_value : value -> string.
Variable str_title : string -> string.

(** X5: when the safety flags of the evidence set [hide_exact_costs], no
    text that [generate_explanations] returns, for the customer or for the
    regulator, the refusal included, holds a currency glyph or a currency
    code INR that is not immediately followed by the mark. *)
Theorem generated_texts_marked
  (evidence : dict) (log log' : list event) (flags payload : dict)
  (key t pattern before after : string) :
  lookup "safety_flags" evidence = Some (VDict flags) ->
  truthy (dict_get flags "hide_exact_costs" (VBool false)) = true ->
  generate_explanations format_value str_title evidence log
  = (Ok payload, log') ->
  key = "customer_text" \/ key = "regulator_text" ->
  lookup key payload = Some (VStr t) ->
  pattern = "₹" \/ pattern = "INR" ->
  t = before ++ pattern ++ after ->
  exists rest, after = "~" ++ rest.
Proof.
  intros Hflags Hhide Hgen Hkey Ht Hp E.
  destruct (generate_explanations_cases format_value str_title evidence log)
    as [[_ H]|[[_ [c [r [flags' [id [_ [_ [Hf [_ H]]]]]]]]]|[_ [e H]]]];
    rewrite H in Hgen; [| |discriminate].
  - injection Hgen as <- _. exfalso.
    assert (Hrefusal : t = refusal_text)
      by (destruct Hkey as [-> | ->]; cbn in Ht; congruence).
    rewrite Hrefusal in E. revert E. apply absent_marked.
    destruct Hp as [-> | ->]; vm_compute; reflexivity.
  - injection Hgen as <- _.
    assert (flags' = flags) by congruence. subst flags'.
    destruct Hkey as [-> | ->]; cbn in Ht; injection Ht as <-;
      rewrite (safety_filter_on _ _ Hhide) in E;
      exact (redacted_text_marked _ pattern before after Hp E).
Qed.
End ReturnedTexts.

Lemma generated_texts_marked_witness :
  exists payload log' t after,
    generate_explanations plain_format plain_title
      (evidence_object env_1 (Float 1000) (Float 1010) []) []
    = (Ok payload, log') /\
    lookup "customer_text" payload = Some (VStr t) /\
    t = ("# Price Change Explanation (Customer Summary)" ++ nl ++ nl
         ++ "**Price Change Summary**" ++ nl ++ "• Price: ")
        ++ "₹" ++ after /\
    exists rest, after = "~" ++ rest.
Proof.
  let outcome :=
    eval vm_compute in
      (generate_explanations plain_format plain_title
         (evidence_object env_1 (Float 1000) (Float 1010) []) []) in
  match outcome with
  | (Ok ((_, VStr ?t) :: ?payload), ?log') =>
      exists (("customer_text", VStr t) :: payload), log', t
  end.
  eexists.
  split; [vm_compute; reflexivity|]. split; [reflexivity|].
  split; [reflexivity|].
  eapply (generated_texts_marked plain_format plain_title
            (evidence_object env_1 (Float 1000) (Float 1010) []) []
            _ _ _ "customer_text" _ "₹"
            ("# Price Change Explanation (Customer Summary)" ++ nl ++ nl
             ++ "**Price Change Summary**" ++ nl ++ "• Price: "));
    [reflexivity|reflexivity|vm_compute; reflexivity|now left
    |vm_compute; reflexivity|now left|reflexivity].
Defined.

(** ** The customer text and the model version *)

Lemma lookup_assign_same {V : Type} (key : string) (v : V)
  (d : list (string * V)) : lookup key (assign key v d) = Some v.
Proof.
  induction d as [|[k w] d IH]; cbn [assign lookup].
  - now rewrite String.eqb_refl.
  - destruct (String.eqb k key) eqn:E; cbn [lookup]; now rewrite E.
Qed.

Lemma lookup_assign_other {V : Type} (key key' : string) (v : V)
  (d : list (string * V)) :
  key' <> key -> lookup key' (assign key v d) = lookup key' d.
Proof.
  intros Hne. induction d as [|[k w] d IH]; cbn [assign lookup].
  - destruct (String.eqb_spec key key'); congruence.
  - destruct (String.eqb_spec k key) as [->|]; cbn [lookup].
    + destruct (String.eqb_spec key key'); congruence.
    + now rewrite IH.
Qed.

Lemma keys_assign {V : Type} (key : string) (v : V) (d : list (string * V)) :
  has_key key d = true -> map fst (assign key v d) = map fst d.
Proof.
  unfold has_key. induction d as [|[k w] d IH]; cbn [assign lookup map fst].
  - discriminate.
  - destruct (String.eqb k key); [reflexivity|].
    intros H. cbn [map fst]. now rewrite IH.
Qed.

Section CustomerText.
Variable format_value : value -> string.
Variable str_title : string -> string.

(** X6: the customer text does not depend on the model version: setting
    [model_version] of an evidence record that has one to any other value
    leaves the outcome of the customer rendering as it was. *)
Theorem customer_text_hides_model_version (evidence : dict) (version : value) :
  has_key "model_version" evidence = true ->
  format_explanation format_value str_title
    (assign "model_version" version evidence) "customer"
  = format_explanation format_value str_title evidence "customer".
Proof.
  intros Hkey. apply has_key_lookup in Hkey as [version0 Hversion].
  cbv beta delta [format_explanation getitem dict_get].
  rewrite lookup_assign_same, Hversion.
  rewrite !lookup_assign_other by discriminate.
  repeat match goal with
  | |- bind ?m _ = bind ?m _ =>
      let x := fresh "x" in destruct m as [x|]; cbn [bind]; [|reflexivity]
  | |- (match ?o with Some _ => _ | None => _ end) = _ =>
      destruct o; cbn [bind]; [|reflexivity]
  | |- bind (match ?o with Some _ => _ | None => _ end) _ = _ =>
      destruct o; cbn [bind]; [|reflexivity]
  end.
  reflexivity.
Qed.



End CustomerText.

Lemma customer_text_hides_model_version_witness :
  format_explanation plain_format plain_title
    (assign "model_version" (VStr "pricing_xgboost_v2")
       (evidence_object env_1 (Float 1000) (Float 1010) [])) "customer"
  = format_explanation plain_format plain_title
      (evidence_object env_1 (Float 1000) (Float 1010) []) "customer".
Proof.
  apply (customer_text_hides_model_version plain_format plain_title).
  reflexivity.
Defined.


(** ** The outcomes of [analyze_change] *)

(** The five ways a call of [analyze_change] ends. *)
Lemma analyze_change_cases
  (env : Ambient) (self : AttributionEngine) (current_state : State)
  (log : list event) :
  (previous_state self = None /\
   analyze_change env self current_state log
   = (Ok None, set_previous_state self current_state, log)) \/
  (exists previous,
      previous_state self = Some previous /\
      insignificant_change (price previous) (price current_state) = Ok true /\
      analyze_change env self current_state log = (Ok None, self, log)) \/
  (exists previous e,
      previous_state self = Some previous /\
      insignificant_change (price previous) (price current_state) = Raise e /\
      analyze_change env self current_state log = (Raise e, self, log)) \/
  (exists previous e,
      previous_state self = Some previous /\
      insignificant_change (price previous) (price current_state) = Ok false /\
      compute_features self previous current_state = Raise e /\
      analyze_change env self current_state log = (Raise e, self, log)) \/
  (exists previous features,
      previous_state self = Some previous /\
      insignificant_change (price previous) (price current_state) = Ok false /\
      compute_features self previous current_state = Ok features /\
      analyze_change env self current_state log
      = (Ok (Some (evidence_object env (price previous) (price current_state)
                     (normalize_attributions features))),
         set_previous_state self current_state,
         log_event log "EVIDENCE_GENERATED"
           (VDict (evidence_object env (price previous) (price current_state)
                     (normalize_attributions features))))).
Proof.
  destruct (previous_state self) as [previous|] eqn:Hprev.
  - right.
    destruct (insignificant_change (price previous) (price current_state))
      as [[|]|e] eqn:Hs.
    + left. exists previous. split; [reflexivity|]. split; [exact Hs|].
      now apply (analyze_change_skip env self previous).
    + right. right.
      destruct (compute_features self previous current_state)
        as [features|e] eqn:Hf.
      * right. exists previous, features.
        split; [reflexivity|]. split; [exact Hs|]. split; [exact Hf|].
        now apply analyze_change_significant.
      * left. exists previous, e.
        split; [reflexivity|]. split; [exact Hs|]. split; [exact Hf|].
        pose proof (analyze_change_attributed env self previous current_state
                      log Hprev Hs) as H.
        now rewrite Hf in H.
    + right. left. exists previous, e.
      split; [reflexivity|]. split; [exact Hs|].
      now apply (analyze_change_gate_raises env self previous).
  - left. split; [reflexivity|]. now apply analyze_change_first.
Qed.

(** X7: a call of [analyze_change] returns [None] exactly on the first call
    and on a call that the price gate skips, its test
    [abs(new_price - old_price) < 0.01] holding in the arithmetic of the
    code; a call that goes into the attribution computation returns an
    evidence record or raises: the rejection by the sum validation does not
    occur (the attributions being exact rationals). *)
Theorem analyze_change_none_iff
  (env : Ambient) (self : AttributionEngine) (current_state : State)
  (log : list event) :
  fst (fst (analyze_change env self current_state log)) = Ok None <->
  previous_state self = None \/
  exists previous,
    previous_state self = Some previous /\
    insignificant_change (price previous) (price current_state) = Ok true.
Proof.
  destruct (analyze_change_cases env self current_state log)
    as [[Hprev H]|[[previous [Hprev [Hs H]]]
       |[[previous [e [Hprev [Hs H]]]]
        |[[previous [e [Hprev [Hs [_ H]]]]]
         |[previous [features [Hprev [Hs [_ H]]]]]]]]];
    rewrite H; cbn [fst]; split; try discriminate; try reflexivity.
  - now left.
  - intros _. right. now exists previous.
  - intros [Hnone|[previous' [Hprev' Hskip]]]; congruence.
  - intros [Hnone|[previous' [Hprev' Hskip]]]; congruence.
  - intros [Hnone|[previous' [Hprev' Hskip]]]; congruence.
Qed.

(** X8: what a call of [analyze_change] leaves behind.  The explainer and
    the feature names are never changed.  A call that returns an evidence
    record has made the current state the baseline and appended one
    EVIDENCE_GENERATED event that carries exactly the record returned; a
    call that returns [None] appends nothing to the audit log; a call that
    raises leaves the engine and the audit log as they were. *)
Theorem analyze_change_audit
  (env : Ambient) (self : AttributionEngine) (current_state : State)
  (log : list event) :
  let '(outcome, self', log') := analyze_change env self current_state log in
  explainer self' = explainer self /\
  feature_names self' = feature_names self /\
  match outcome with
  | Ok (Some evidence) =>
      previous_state self' = Some current_state /\
      log' = (log ++ [("EVIDENCE_GENERATED", VDict evidence)])%list
  | Ok None =>
      log' = log /\
      (self' = self \/
       previous_state self = None /\ previous_state self' = Some current_state)
  | Raise _ => self' = self /\ log' = log
  end.
Proof.
  destruct (analyze_change_cases env self current_state log)
    as [[Hprev H]|[[previous [Hprev [Hs H]]]
       |[[previous [e [Hprev [Hs H]]]]
        |[[previous [e [Hprev [Hs [_ H]]]]]
         |[previous [features [Hprev [Hs [_ H]]]]]]]]];
    rewrite H; repeat split; try reflexivity.
  - right. now split.
  - now left.
Qed.

(** ** More on normalization *)

Section NormalizationFacts.
Local Open Scope Q_scope.

Lemma set_attribution_same (f : Feature) : set_attribution f (attribution f) = f.
Proof. now destruct f. Qed.

(** The two shapes of a normalized list: the rounded shares, the first
    one corrected or not. *)
Lemma normalize_attributions_shape (f0 : Feature) (fs : list Feature) :
  ~ py_sum (map (fun f => Qabs (attribution f)) (f0 :: fs)) == 0 ->
  exists a0,
    normalize_attributions (f0 :: fs)
    = set_attribution f0 (py_round a0 2)
      :: map (fun f => set_attribution f
                         (py_round
                            (attribution f
                             / py_sum (map (fun f => Qabs (attribution f))
                                         (f0 :: fs))) 2)) fs.
Proof.
  intros Htotal. unfold normalize_attributions.
  set (total := py_sum (map (fun f => Qabs (attribution f)) (f0 :: fs))) in *.
  destruct (Qeq_bool total 0) eqn:Hz.
  { apply Qeq_bool_eq in Hz. contradiction. }
  destruct (negb _); cbn [map]; now eexists.
Qed.

(** X11: [normalize_attributions] changes nothing but the attributions: the
    list it returns has the features of the list it was given, in the same
    order, each with its other fields as they were. *)
Theorem normalize_attributions_frame (features : list Feature) :
  Forall2 (fun f g => g = set_attribution f (attribution g))
    features (normalize_attributions features).
Proof.
  assert (Hsame : forall l : list Feature,
             Forall2 (fun f g => g = set_attribution f (attribution g)) l l).
  { induction l as [|f l IH]; constructor; [|exact IH].
    symmetry. apply set_attribution_same. }
  destruct features as [|f0 fs]; [constructor|].
  destruct (Qeq_dec (py_sum (map (fun f => Qabs (attribution f)) (f0 :: fs))) 0)
    as [Hz|Hz].
  - rewrite (normalize_attributions_zero _ Hz). apply Hsame.
  - destruct (normalize_attributions_shape f0 fs Hz) as [a0 ->].
    constructor; [reflexivity|].
    generalize (py_sum (map (fun f => Qabs (attribution f)) (f0 :: fs))).
    intros total. clear.
    induction fs as [|f fs IH]; cbn [map]; constructor; [reflexivity|exact IH].
Qed.







End NormalizationFacts.



(** ** The features of the two attribution paths *)

Section FeatureFacts.
Local Open Scope Q_scope.

(** An input whose percentage change is significant had a non-zero old value
    and has changed. *)
Lemma significant_change (old_val new_val : number) :
  significant (Qabs (pct_change_of old_val new_val)) = true ->
  ~ number_Q old_val == 0 /\ ~ number_Q new_val == number_Q old_val.
Proof.
  intros H. apply significant_pos in H. unfold pct_change_of in H.
  destruct (Qeq_bool (number_Q old_val) 0) eqn:Hz; cbn [negb] in H.
  { discriminate. }
  split.
  - intros E. apply Qeq_eq_bool in E. congruence.
  - intros E.
    assert (E0 : (number_Q new_val - number_Q old_val) / number_Q old_val * 100
                 == 0).
    { rewrite E. unfold Qdiv. ring. }
    rewrite E0 in H. discriminate.
Qed.

Lemma fallback_features_changed
  (keys : list string) (old_inputs new_inputs : list (string * number))
  (acc features : list Feature) :
  fallback_features keys old_inputs new_inputs acc = Ok features ->
  Forall (from_changed_input old_inputs new_inputs) acc ->
  Forall (from_changed_input old_inputs new_inputs) features.
Proof.
  revert acc. induction keys as [|key keys IH]; intros acc H Hacc;
    cbn [fallback_features] in H.
  - now injection H as <-.
  - unfold input_of in H.
    destruct (lookup key old_inputs) as [old_val|] eqn:Hold; [|discriminate].
    destruct (lookup key new_inputs) as [new_val|] eqn:Hnew; [|discriminate].
    cbn [bind] in H. apply IH in H; [exact H|].
    destruct (significant (Qabs (pct_change_of old_val new_val))) eqn:Hs;
      [|exact Hacc].
    apply Forall_app. split; [exact Hacc|]. constructor; [|constructor].
    destruct (significant_change _ _ Hs) as [Hz Hne].
    exists old_val, new_val. cbn [name shap_raw data_source].
    repeat split; assumption.
Qed.

(** X14: in fallback mode a feature is reported only for a key of both
    inputs whose old value is not zero and whose value has changed; it has
    no [shap_raw], and its data source is the one on record for its name.
    An input that was zero is never reported, whatever it has become. *)
Theorem fallback_features_from_changed_inputs
  (self : AttributionEngine) (previous current_state : State)
  (features : list Feature) :
  explainer self = None ->
  compute_features self previous current_state = Ok features ->
  Forall (from_changed_input (inputs previous) (inputs current_state)) features.
Proof.
  intros Hmode H. unfold compute_features in H. rewrite Hmode in H.
  apply (fallback_features_changed _ _ _ _ _ H). constructor.
Qed.

Lemma significant_gt (x : Q) : significant x = true -> 1 # 1000 < x.
Proof.
  unfold significant. intros H. apply negb_true_iff in H.
  apply Qnot_le_lt. intros Hle. apply Qle_bool_iff in Hle. congruence.
Qed.

Lemma shap_features_from
  (all : list string) (sv : list Q)
  (old_inputs new_inputs : list (string * number))
  (names : list string) (i : nat) (acc features : list Feature) :
  (forall j key, nth_error names j = Some key ->
                 nth_error all (i + j) = Some key) ->
  shap_features names i sv old_inputs new_inputs acc = Ok features ->
  Forall (from_shap_value all sv) acc ->
  Forall (from_shap_value all sv) features.
Proof.
  revert i acc. induction names as [|key names IH]; intros i acc Hnames H Hacc;
    cbn [shap_features] in H.
  - now injection H as <-.
  - destruct (nth_error sv i) as [shap_val|] eqn:Hsv; [|discriminate].
    apply IH in H; [exact H| |].
    + intros j key' Hj. replace (S i + j)%nat with (i + S j)%nat by lia.
      now apply Hnames.
    + destruct (significant (Qabs shap_val)) eqn:Hs; [|exact Hacc].
      apply Forall_app. split; [exact Hacc|]. constructor; [|constructor].
      exists i, shap_val. cbn [name attribution shap_raw].
      repeat split; try assumption.
      * rewrite <- (Nat.add_0_r i). now apply Hnames.
      * now apply significant_gt.
Qed.

Lemma shap_features_index_error
  (names : list string) (i : nat) (sv : list Q)
  (old_inputs new_inputs : list (string * number)) (acc : list Feature) :
  (i <= List.length sv)%nat ->
  (List.length sv < i + List.length names)%nat ->
  shap_features names i sv old_inputs new_inputs acc = Raise IndexError.
Proof.
  revert i acc. induction names as [|name names IH]; intros i acc Hi Hlen;
    cbn [List.length] in Hlen; [lia|].
  cbn [shap_features].
  destruct (nth_error sv i) as [shap_val|] eqn:Hsv; [|reflexivity].
  apply IH.
  - apply (proj1 (nth_error_Some sv i)). congruence.
  - lia.
Qed.

(** X15: in explainer mode, once the explainer has returned its values: the
    call raises when there are fewer values than feature names; a call that
    returns had a value for every feature name, whatever inputs the states
    hold (a missing input counts as 0), and every feature it reports is
    named after a feature name and carries the magnitude of the SHAP value
    at the index of that name, which exceeds 0.001. *)
Theorem explainer_features_from_shap_values
  (self : AttributionEngine) (previous current_state : State)
  (explain : Explainer) (sv : list Q) :
  explainer self = Some explain ->
  explain (map (fun name => lookup name (inputs current_state))
             (feature_names self)) = Ok sv ->
  ((List.length sv < List.length (feature_names self))%nat ->
   exists e, compute_features self previous current_state = Raise e) /\
  (forall features,
      compute_features self previous current_state = Ok features ->
      (List.length (feature_names self) <= List.length sv)%nat /\
      Forall (from_shap_value (feature_names self) sv) features).
Proof.
  intros Hmode Hsv. unfold compute_features. rewrite Hmode, Hsv. cbn [bind].
  split.
  - intros Hlen. exists IndexError. apply shap_features_index_error; lia.
  - intros features H. split.
    + destruct (Nat.le_gt_cases (List.length (feature_names self))
                  (List.length sv)) as [Hle|Hlt]; [exact Hle|].
      rewrite shap_features_index_error in H; [discriminate|lia|lia].
    + apply (shap_features_from (feature_names self) sv (inputs previous)
               (inputs current_state) (feature_names self) 0 [] features
               (fun j key Hj => Hj) H).
      constructor.
Qed.
End FeatureFacts.

Lemma fallback_features_from_changed_inputs_witness :
  exists features,
    compute_features engine_1 old_state_1 new_state_1 = Ok features /\
    map name features = ["raw_material_cost"] /\
    Forall (from_changed_input (inputs old_state_1) (inputs new_state_1))
      features.
Proof.
  eexists. split; [reflexivity|]. split; [reflexivity|].
  apply (fallback_features_from_changed_inputs engine_1 old_state_1
           new_state_1); reflexivity.
Defined.

Lemma explainer_features_from_shap_values_witness :
  (exists e, compute_features short_engine old_state_2 new_state_2 = Raise e) /\
  (exists features,
      compute_features shap_engine old_state_2 new_state_2 = Ok features /\
      map name features = ["raw_material_cost"; "demand_index"] /\
      (List.length (feature_names shap_engine)
       <= List.length [3 # 2; - (1 # 2)]%Q)%nat /\
      Forall (from_shap_value (feature_names shap_engine) [3 # 2; - (1 # 2)]%Q)
        features).
Proof.
  split.
  - apply (proj1 (explainer_features_from_shap_values short_engine old_state_2
                    new_state_2 constant_explainer [3 # 2; - (1 # 2)]%Q
                    eq_refl eq_refl)).
    simpl. lia.
  - eexists. split; [reflexivity|]. split; [reflexivity|].
    apply (proj2 (explainer_features_from_shap_values shap_engine old_state_2
                    new_state_2 constant_explainer [3 # 2; - (1 # 2)]%Q
                    eq_refl eq_refl)).
    reflexivity.
Defined.
(** ** The pricing model *)

Lemma lookup_In {V : Type} (key : string) (d : list (string * V)) (v : V) :
  lookup key d = Some v -> In key (map fst d).
Proof.
  induction d as [|[k w] d IH]; cbn [lookup map fst]; [discriminate|].
  destruct (String.eqb_spec k key) as [->|]; [now left|].
  intros H. right. now apply IH.
Qed.

Lemma has_key_In {V : Type} (key : string) (d : list (string * V)) :
  has_key key d = true <-> In key (map fst d).
Proof.
  unfold has_key. split.
  - destruct (lookup key d) as [v|] eqn:E; [|discriminate].
    intros _. now apply (lookup_In key d v).
  - intros H. apply lookup_key in H as [v ->]. reflexivity.
Qed.

Lemma scale_frame (key : string) (c : Q) (d d' : list (string * number)) :
  scale key c d = Ok d' ->
  map fst d' = map fst d /\
  (forall k, k <> key -> lookup k d' = lookup k d).
Proof.
  unfold scale, input_of.
  destruct (lookup key d) as [old|] eqn:E; [|discriminate].
  cbn [bind]. intros H. injection H as <-. split.
  - apply keys_assign. unfold has_key. now rewrite E.
  - intros k Hk. now apply lookup_assign_other.
Qed.

Lemma scale_returns (key : string) (c : Q) (d : list (string * number)) :
  In key (map fst d) -> exists d', scale key c d = Ok d'.
Proof.
  intros H. apply lookup_key in H as [v H].
  unfold scale, input_of. rewrite H. now eexists.
Qed.

Lemma fluctuate_frame
  (change_type : ChangeType) (d d' : list (string * number)) :
  Pricing.fluctuate change_type d = Ok d' ->
  map fst d' = map fst d /\
  (forall k, ~ In k (touched change_type) -> lookup k d' = lookup k d).
Proof.
  destruct change_type; cbn [Pricing.fluctuate touched]; intros H.
  - apply scale_frame in H as [H1 H2]. split; [exact H1|].
    intros k Hk. apply H2. intros ->. apply Hk. now left.
  - apply scale_frame in H as [H1 H2]. split; [exact H1|].
    intros k Hk. apply H2. intros ->. apply Hk. now left.
  - unfold input_of in H.
    destruct (lookup "inventory_level" d) as [level|] eqn:E; [|discriminate].
    cbn [bind] in H. injection H as <-. split.
    + apply keys_assign. unfold has_key. now rewrite E.
    + intros k Hk. apply lookup_assign_other. intros ->. apply Hk. now left.
  - apply scale_frame in H as [H1 H2]. split; [exact H1|].
    intros k Hk. apply H2. intros ->. apply Hk. now left.
  - bound H as d1 E1.
    apply scale_frame in E1 as [H1 H2]. apply scale_frame in H as [H3 H4].
    split; [congruence|].
    intros k Hk. rewrite H4, H2; [reflexivity| |];
      intros ->; apply Hk; cbn; tauto.
Qed.

Lemma fluctuate_returns
  (change_type : ChangeType) (d : list (string * number)) :
  (forall k, In k (touched change_type) -> In k (map fst d)) ->
  exists d', Pricing.fluctuate change_type d = Ok d'.
Proof.
  destruct change_type; cbn [Pricing.fluctuate touched]; intros H.
  - apply scale_returns, H. now left.
  - apply scale_returns, H. now left.
  - destruct (lookup_key "inventory_level" d (H _ (or_introl eq_refl)))
      as [level E].
    unfold input_of. rewrite E. now eexists.
  - apply scale_returns, H. now left.
  - destruct (scale_returns "raw_material_cost" (102 # 100) d) as [d1 E1];
      [apply H; now left|].
    rewrite E1. cbn [bind]. apply scale_returns.
    apply scale_frame in E1 as [-> _]. apply H. cbn. tauto.
Qed.

(** What a call of [simulate_market_update] that returns has done. *)
Lemma simulate_market_update_Ok
  (self self' : Pricing.PricingModel) (change_type : ChangeType)
  (state : State) :
  Pricing.simulate_market_update self change_type = Ok (state, self') ->
  exists new_inputs new_price,
    Pricing.fluctuate change_type (Pricing.current_inputs self)
    = Ok new_inputs /\
    Pricing.predict_price (Pricing.model self) (Pricing.feature_names self)
      new_inputs = Ok new_price /\
    self' = {| Pricing.model := Pricing.model self;
               Pricing.feature_names := Pricing.feature_names self;
               Pricing.current_inputs := new_inputs;
               Pricing.current_price := new_price |} /\
    state = {| price := new_price; inputs := new_inputs |}.
Proof.
  unfold Pricing.simulate_market_update. intros H.
  bound H as new_inputs Hnew. bound H as new_price Hprice.
  injection H as <- <-. now exists new_inputs, new_price.
Qed.

(** X16: a call of [simulate_market_update] that returns has kept the
    inputs it does not fluctuate as they were, and the names of the inputs
    and their order; the state it returns is the state of the model after
    the call, whose regressor and feature names are those of before. *)
Theorem simulate_market_update_frame
  (self self' : Pricing.PricingModel) (change_type : ChangeType)
  (state : State) :
  Pricing.simulate_market_update self change_type = Ok (state, self') ->
  state = Pricing.get_state self' /\
  Pricing.model self' = Pricing.model self /\
  Pricing.feature_names self' = Pricing.feature_names self /\
  map fst (inputs state) = map fst (Pricing.current_inputs self) /\
  (forall key, ~ In key (touched change_type) ->
               lookup key (inputs state)
               = lookup key (Pricing.current_inputs self)).
Proof.
  intros H.
  apply simulate_market_update_Ok in H
    as [new_inputs [new_price [Hnew [_ [-> ->]]]]].
  apply fluctuate_frame in Hnew as [Hkeys Hframe].
  repeat split; assumption.
Qed.

Lemma simulate_market_update_frame_witness :
  exists state self',
    Pricing.simulate_market_update
      {| Pricing.model := None;
         Pricing.feature_names := Pricing.default_feature_names;
         Pricing.current_inputs := Pricing.initial_inputs;
         Pricing.current_price := Float 1000 |} mixed
    = Ok (state, self') /\
    state = Pricing.get_state self' /\
    Pricing.model self' = None /\
    Pricing.feature_names self' = Pricing.default_feature_names /\
    map fst (inputs state) = map fst Pricing.initial_inputs /\
    (forall key, ~ In key (touched mixed) ->
                 lookup key (inputs state)
                 = lookup key Pricing.initial_inputs).
Proof.
  eexists _, _. split; [reflexivity|].
  apply (simulate_market_update_frame
           {| Pricing.model := None;
              Pricing.feature_names := Pricing.default_feature_names;
              Pricing.current_inputs := Pricing.initial_inputs;
              Pricing.current_price := Float 1000 |}).
  reflexivity.
Defined.

(** ** The loop of [main.py] *)

Lemma shown_evidence_object
  (env : Ambient) (old_price new_price : number) (features : list Feature) :
  shown (evidence_object env old_price new_price features)
  = Ok (map (fun f => VStr (name f)) features).
Proof.
  unfold shown. cbn [evidence_object getitem lookup String.eqb Ascii.eqb
                       Bool.eqb bind iterate].
  induction features as [|f features IH]; [reflexivity|].
  cbn [map mapM]. rewrite IH. reflexivity.
Qed.

Section MainFacts.
Variable format_value : value -> string.
Variable str_title : string -> string.

Local Abbreviation run_cycle := (cycle format_value str_title).
Local Abbreviation run_cycles := (cycles format_value str_title).
Local Abbreviation run_main := (main format_value str_title).

(** The explainer answers an evidence record of the engine with the two
    texts, after one TEXT_GENERATED event. *)
Lemma explained
  (env : Ambient) (old_price new_price : number) (features : list Feature)
  (log : list event) :
  exists customer regulator,
    generate_explanations format_value str_title
      (evidence_object env old_price new_price features) log
    = (Ok [ ("customer_text", VStr customer);
            ("regulator_text", VStr regulator);
            ("evidence_used", VStr (uuid4 env)) ],
       (log ++ [("TEXT_GENERATED",
                 VDict [ ("customer_text", VStr customer);
                         ("regulator_text", VStr regulator);
                         ("evidence_used", VStr (uuid4 env)) ])])%list).
Proof.
  pose proof (evidence_object_well_formed env old_price new_price features)
    as Hwf.
  destruct (format_explanation_returns format_value str_title _ "customer" Hwf)
    as [c Hc].
  destruct (format_explanation_returns format_value str_title _ "regulator" Hwf)
    as [r Hr].
  destruct (generate_explanations_cases format_value str_title
              (evidence_object env old_price new_price features) log)
    as [[Hv _]|[[_ [c' [r' [flags [id [_ [_ [_ [Hid H]]]]]]]]]|[_ [e H]]]].
  - rewrite evidence_object_validates in Hv. discriminate.
  - injection Hid as <-. rewrite H. now eexists _, _.
  - exfalso. revert H. cbv beta delta [generate_explanations].
    rewrite evidence_object_validates. cbn [negb].
    rewrite Hc, Hr. cbn [bind]. discriminate.
Qed.

(** The outcomes of one pass, by the outcome of [analyze_change]. *)
Lemma cycle_cases (bot : Bot) (draw : Draw) (log : list event) :
  (exists e,
      Pricing.simulate_market_update (pricing_model bot) (change_type draw)
      = Raise e /\
      run_cycle bot draw log = (Raise e, log)) \/
  (exists current_state model,
      Pricing.simulate_market_update (pricing_model bot) (change_type draw)
      = Ok (current_state, model) /\
      ((exists e self' log',
           analyze_change (ambient draw) (attribution_engine bot)
             current_state log = (Raise e, self', log') /\
           run_cycle bot draw log = (Raise e, log)) \/
       (exists self',
           (self' = attribution_engine bot \/
            self' = set_previous_state (attribution_engine bot)
                      current_state) /\
           analyze_change (ambient draw) (attribution_engine bot)
             current_state log = (Ok None, self', log) /\
           run_cycle bot draw log
           = (Ok ({| pricing_model := model; attribution_engine := self' |},
                  None), log)) \/
       (exists evidence customer regulator,
           analyze_change (ambient draw) (attribution_engine bot)
             current_state log
           = (Ok (Some evidence),
              set_previous_state (attribution_engine bot) current_state,
              (log ++ [("EVIDENCE_GENERATED", VDict evidence)])%list) /\
           run_cycle bot draw log
           = (Ok ({| pricing_model := model;
                     attribution_engine :=
                       set_previous_state (attribution_engine bot)
                         current_state |},
                  Some [ ("customer_text", VStr customer);
                         ("regulator_text", VStr regulator);
                         ("evidence_used", VStr (uuid4 (ambient draw))) ]),
              (log ++ [("EVIDENCE_GENERATED", VDict evidence);
                       ("TEXT_GENERATED",
                        VDict [ ("customer_text", VStr customer);
                                ("regulator_text", VStr regulator);
                                ("evidence_used",
                                 VStr (uuid4 (ambient draw))) ])])%list)))).
Proof.
  cbv beta delta [cycle].
  destruct (Pricing.simulate_market_update (pricing_model bot) (change_type draw))
    as [[current_state model]|e]; [right|left; now exists e].
  exists current_state, model. split; [reflexivity|].
  destruct (analyze_change_cases (ambient draw) (attribution_engine bot)
              current_state log)
    as [[Hprev H]|[[previous [Hprev [Hs H]]]
       |[[previous [e [Hprev [Hs H]]]]
        |[[previous [e [Hprev [Hs [_ H]]]]]
         |[previous [features [Hprev [Hs [_ H]]]]]]]]];
    rewrite H.
  - right. left. eexists. split; [now right|now split].
  - right. left. eexists. split; [now left|now split].
  - left. now eexists _, _, _.
  - left. now eexists _, _, _.
  - right. right.
    destruct (explained (ambient draw) (price previous) (price current_state)
                (normalize_attributions features)
                (log_event log "EVIDENCE_GENERATED"
                   (VDict (evidence_object (ambient draw) (price previous)
                             (price current_state)
                             (normalize_attributions features)))))
      as [customer [regulator Hgen]].
    eexists _, customer, regulator. split; [reflexivity|].
    cbv iota beta. rewrite shown_evidence_object, Hgen.
    unfold log_event. rewrite <- app_assoc. reflexivity.
Qed.

(** *** A run that does not raise *)

Section Returning.
Variable files : option (Predictor * list string).
Variable shap : option (Explainer * list string).
Hypothesis files_return : predictor_returns files.
Hypothesis shap_returns : explainer_returns shap.

Lemma predict_price_returns
  (names : list string) (inputs : list (string * number)) :
  exists p, Pricing.predict_price (option_map fst files) names inputs = Ok p.
Proof.
  unfold predictor_returns in files_return.
  destruct files as [[predict names']|]; cbn [option_map fst Pricing.predict_price].
  - destruct (files_return (map (fun name => lookup name inputs) names))
      as [q ->].
    now eexists.
  - now eexists.
Qed.

Lemma predict_price_float
  (model : option Predictor) (names : list string)
  (inputs : list (string * number)) (p : number) :
  Pricing.predict_price model names inputs = Ok p -> exists q, p = Float q.
Proof.
  unfold Pricing.predict_price. destruct model as [predict|].
  - destruct (predict _) as [prediction|e]; cbn [bind]; [|discriminate].
    intros H. injection H as <-. now eexists.
  - intros H. injection H as <-. now eexists.
Qed.

Lemma simulate_market_update_returns
  (self : Pricing.PricingModel) (change_type : ChangeType) :
  Pricing.model self = option_map fst files ->
  map fst (Pricing.current_inputs self) = Pricing.default_feature_names ->
  exists state self',
    Pricing.simulate_market_update self change_type = Ok (state, self').
Proof.
  intros Hmodel Hkeys. unfold Pricing.simulate_market_update.
  destruct (fluctuate_returns change_type (Pricing.current_inputs self))
    as [new_inputs ->].
  { rewrite Hkeys. destruct change_type; cbn; intuition. }
  cbn [bind]. rewrite Hmodel.
  destruct (predict_price_returns (Pricing.feature_names self) new_inputs)
    as [p ->].
  cbn [bind]. now eexists _, _.
Qed.

Lemma analyze_change_defined
  (env : Ambient) (self : AttributionEngine) (current_state : State)
  (log : list event) :
  explainer self = option_map fst shap ->
  feature_names self
  = match shap with Some (_, names) => names | None => [] end ->
  (forall previous,
      previous_state self = Some previous ->
      map fst (inputs previous) = map fst (inputs current_state) /\
      exists q, price previous = Float q) ->
  (exists q, price current_state = Float q) ->
  forall e, fst (fst (analyze_change env self current_state log)) <> Raise e.
Proof.
  intros Hex Hnames Hkeys [new_price Hnew] e.
  destruct (analyze_change_cases env self current_state log)
    as [[Hprev H]|[[previous [Hprev [Hs H]]]
       |[[previous [e' [Hprev [Hs H]]]]
        |[[previous [e' [Hprev [Hs [Hf H]]]]]
         |[previous [features [Hprev [Hs [_ H]]]]]]]]];
    rewrite H; cbn [fst]; try discriminate.
  { exfalso. destruct (Hkeys previous Hprev) as [_ [old_price Hold]].
    rewrite Hold, Hnew in Hs. discriminate. }
  exfalso.
  destruct (compute_features_returns self previous current_state)
    as [features Hfeatures]; [|congruence].
  unfold attribution_defined. rewrite Hex.
  unfold explainer_returns in shap_returns.
  destruct shap as [[explain names]|]; cbn [option_map fst].
  - rewrite Hnames. apply shap_returns.
  - intros key Hkey. apply has_key_In.
    rewrite <- (proj1 (Hkeys previous Hprev)). exact Hkey.
Qed.

Lemma cycle_returns (bot : Bot) (draw : Draw) (log : list event) :
  kept files shap bot ->
  exists bot' outputs log',
    run_cycle bot draw log = (Ok (bot', outputs), log') /\ kept files shap bot'.
Proof.
  intros [Hmodel [Hkeys [Hex [Hnames [baseline [Hprev [Hbase Hfloat]]]]]]].
  destruct (cycle_cases bot draw log)
    as [[e [Hsim _]]
       |[current_state [model [Hsim
          [[e [self' [log' [Hcall _]]]]
          |[[self' [Hself [_ Hcycle]]]
           |[evidence [customer [regulator [_ Hcycle]]]]]]]]]].
  - exfalso.
    destruct (simulate_market_update_returns (pricing_model bot) (change_type draw)
                Hmodel Hkeys) as [state [self' H]].
    congruence.
  - exfalso.
    apply simulate_market_update_Ok in Hsim
      as [new_inputs [new_price [Hnew [Hprice [_ ->]]]]].
    apply fluctuate_frame in Hnew as [Hk _]. cbn [inputs] in *.
    apply (analyze_change_defined (ambient draw) (attribution_engine bot)
             {| price := new_price; inputs := new_inputs |} log Hex Hnames)
      with (e := e).
    + intros previous Hp. cbn [inputs].
      assert (previous = baseline) by congruence. subst previous.
      split; [rewrite Hk; congruence|exact Hfloat].
    + cbn [price]. exact (predict_price_float _ _ _ _ Hprice).
    + now rewrite Hcall.
  - apply simulate_market_update_Ok in Hsim
      as [new_inputs [new_price [Hnew [Hprice [-> ->]]]]].
    apply fluctuate_frame in Hnew as [Hk _].
    apply predict_price_float in Hprice.
    eexists _, _, _. split; [exact Hcycle|].
    unfold kept. cbn [pricing_model attribution_engine Pricing.model
                        Pricing.current_inputs inputs].
    split; [exact Hmodel|]. split; [congruence|].
    destruct Hself as [-> | ->].
    + split; [exact Hex|]. split; [exact Hnames|]. now exists baseline.
    + split; [exact Hex|]. split; [exact Hnames|].
      eexists. split; [reflexivity|]. cbn [inputs price].
      split; [congruence|exact Hprice].
  - apply simulate_market_update_Ok in Hsim
      as [new_inputs [new_price [Hnew [Hprice [-> ->]]]]].
    apply fluctuate_frame in Hnew as [Hk _].
    apply predict_price_float in Hprice.
    eexists _, _, _. split; [exact Hcycle|].
    unfold kept. cbn [pricing_model attribution_engine Pricing.model
                        Pricing.current_inputs inputs].
    split; [exact Hmodel|]. split; [congruence|].
    split; [exact Hex|]. split; [exact Hnames|].
    eexists. split; [reflexivity|]. cbn [inputs price].
    split; [congruence|exact Hprice].
Qed.

Lemma cycles_return (draws : list Draw) (bot : Bot) (log : list event) :
  kept files shap bot ->
  exists bot' outputs log',
    run_cycles bot draws log = (Ok (bot', outputs), log') /\
    List.length outputs = List.length draws.
Proof.
  revert bot log. induction draws as [|draw draws IH]; intros bot log Hkept.
  - now eexists _, _, _.
  - destruct (cycle_returns bot draw log Hkept)
      as [bot1 [outputs [log1 [Hcycle Hkept1]]]].
    destruct (IH bot1 log1 Hkept1) as [bot2 [more [log2 [Hrest Hlen]]]].
    exists bot2, (outputs :: more), log2.
    split; [|cbn [List.length]; congruence].
    cbn [cycles]. rewrite Hcycle, Hrest. reflexivity.
Qed.

(** X19: a run of [main] whose regressor predicts a price for every row and
    whose explainer, when there is one, returns enough SHAP values does not
    raise, whatever the fluctuations drawn: it makes its five passes. *)
Theorem main_returns (draws : nat -> Draw) (log : list event) :
  exists bot outputs log',
    run_main files shap draws log = (Ok (bot, outputs), log') /\
    List.length outputs = 5%nat.
Proof.
  cbv beta delta [main].
  unfold Pricing.init.
  destruct (predict_price_returns
              match files with
              | Some (_, names) => names
              | None => Pricing.default_feature_names
              end Pricing.initial_inputs) as [p Hp].
  rewrite Hp. apply predict_price_float in Hp as [q ->].
  cbn [bind].
  rewrite analyze_change_first by reflexivity.
  apply (cycles_return (map draws (seq 1 5))).
  unfold kept. cbn [pricing_model attribution_engine Pricing.model
                      Pricing.current_inputs set_previous_state new_engine
                      explainer feature_names previous_state].
  repeat split.
  eexists. split; [reflexivity|]. split; [reflexivity|]. now exists q.
Qed.
End Returning.


(** *** A run without the model files *)

Lemma cycles_silent
  (draws : list Draw) (bot : Bot) (log : list event) (baseline : State) :
  Pricing.model (pricing_model bot) = None ->
  map fst (Pricing.current_inputs (pricing_model bot))
  = Pricing.default_feature_names ->
  previous_state (attribution_engine bot) = Some baseline ->
  price baseline = Float 1000 ->
  exists model,
    run_cycles bot draws log
    = (Ok ({| pricing_model := model;
              attribution_engine := attribution_engine bot |},
           map (fun _ => None) draws), log).
Proof.
  revert bot. induction draws as [|draw draws IH];
    intros bot Hmodel Hkeys Hprev Hprice.
  - exists (pricing_model bot). now destruct bot.
  - destruct (fluctuate_returns (change_type draw)
                (Pricing.current_inputs (pricing_model bot)))
      as [new_inputs Hnew].
    { rewrite Hkeys. destruct (change_type draw); cbn; intuition. }
    pose proof (fluctuate_frame _ _ _ Hnew) as [Hkeys' _].
    set (model' := {| Pricing.model := None;
                      Pricing.feature_names :=
                        Pricing.feature_names (pricing_model bot);
                      Pricing.current_inputs := new_inputs;
                      Pricing.current_price := Float 1000 |}).
    assert (Hsim : Pricing.simulate_market_update (pricing_model bot)
                     (change_type draw)
                   = Ok (Pricing.get_state model', model')).
    { unfold Pricing.simulate_market_update. rewrite Hnew. cbn [bind].
      rewrite Hmodel. reflexivity. }
    assert (Hcycle : run_cycle bot draw log
                     = (Ok ({| pricing_model := model';
                               attribution_engine := attribution_engine bot |},
                            None), log)).
    { cbv beta delta [cycle]. rewrite Hsim. cbv iota beta.
      rewrite (analyze_change_skip (ambient draw) (attribution_engine bot)
                 baseline (Pricing.get_state model') log Hprev).
      - reflexivity.
      - rewrite Hprice. vm_compute. reflexivity. }
    destruct (IH {| pricing_model := model';
                    attribution_engine := attribution_engine bot |})
      as [model Hrest]; cbn [pricing_model attribution_engine];
      [reflexivity
      |unfold model'; cbn [Pricing.current_inputs]; congruence
      |exact Hprev|exact Hprice|].
    exists model. cbn [cycles map]. rewrite Hcycle, Hrest. reflexivity.
Qed.

(** X18: without the model files the pricing model prices every state at
    1000.0, so a run of [main] produces no evidence record and no
    explanation, whatever the fluctuations drawn and whatever engine was
    built: each of the five passes ends with nothing to explain, the
    baseline stays the starting state and the audit log gains the
    MODEL_INITIALIZED event only. *)
Theorem main_without_model_is_silent
  (shap : option (Explainer * list string)) (draws : nat -> Draw)
  (log : list event) :
  exists model details,
    run_main None shap draws log
    = (Ok ({| pricing_model := model;
              attribution_engine :=
                set_previous_state (new_engine shap)
                  {| price := Float 1000;
                     inputs := Pricing.initial_inputs |} |},
           [None; None; None; None; None]),
       (log ++ [("MODEL_INITIALIZED", details)])%list).
Proof.
  cbv beta delta [main].
  cbn [Pricing.init option_map Pricing.predict_price bind].
  rewrite analyze_change_first by reflexivity.
  destruct (cycles_silent (map draws (seq 1 5))
              {| pricing_model :=
                   {| Pricing.model := None;
                      Pricing.feature_names := Pricing.default_feature_names;
                      Pricing.current_inputs := Pricing.initial_inputs;
                      Pricing.current_price := Float 1000 |};
                 attribution_engine :=
                   set_previous_state (new_engine shap)
                     {| price := Float 1000;
                        inputs := Pricing.initial_inputs |} |}
              (log_event log "MODEL_INITIALIZED"
                 (VDict [ ("initial_price", VNum (Float 1000));
                          ("initial_inputs",
                           Pricing.inputs_value Pricing.initial_inputs);
                          ("model_type", VStr "Fallback") ]))
              {| price := Float 1000; inputs := Pricing.initial_inputs |})
    as [model H]; try reflexivity.
  eexists model, _. exact H.
Qed.

(** *** The audit trail of a run *)

Lemma cycle_trail (bot : Bot) (draw : Draw) (log : list event) :
  exists events,
    snd (run_cycle bot draw log) = (log ++ events)%list /\
    Forall (fun e => fst e = "EVIDENCE_GENERATED" \/ fst e = "TEXT_GENERATED")
      events /\
    forall bot' output,
      fst (run_cycle bot draw log) = Ok (bot', output) ->
      texts_logged events = texts_returned [output].
Proof.
  destruct (cycle_cases bot draw log)
    as [[e [_ H]]
       |[current_state [model [_
          [[e [self' [log' [_ H]]]]
          |[[self' [_ [_ H]]]
           |[evidence [customer [regulator [_ H]]]]]]]]]];
    rewrite H; cbn [fst snd].
  - exists []. rewrite app_nil_r. repeat split; [constructor|discriminate].
  - exists []. rewrite app_nil_r. repeat split; [constructor|discriminate].
  - exists []. rewrite app_nil_r. repeat split; [constructor|].
    intros bot' output E. now injection E as _ <-.
  - eexists. split; [reflexivity|]. split.
    + constructor; [now left|]. constructor; [now right|constructor].
    + intros bot' output E. now injection E as _ <-.
Qed.

Lemma texts_logged_app (events events' : list event) :
  texts_logged (events ++ events') = (texts_logged events ++ texts_logged events')%list.
Proof. unfold texts_logged. now rewrite filter_app, map_app. Qed.

Lemma cycles_trail (draws : list Draw) (bot : Bot) (log : list event) :
  exists events,
    snd (run_cycles bot draws log) = (log ++ events)%list /\
    Forall (fun e => fst e = "EVIDENCE_GENERATED" \/ fst e = "TEXT_GENERATED")
      events /\
    forall bot' outputs,
      fst (run_cycles bot draws log) = Ok (bot', outputs) ->
      texts_logged events = texts_returned outputs.
Proof.
  revert bot log. induction draws as [|draw draws IH]; intros bot log.
  - exists []. cbn [cycles fst snd]. rewrite app_nil_r.
    repeat split; [constructor|].
    intros bot' outputs E. now injection E as _ <-.
  - destruct (cycle_trail bot draw log) as [events [Hlog [Hall Htexts]]].
    cbn [cycles].
    destruct (run_cycle bot draw log) as [[[bot1 output]|e] log1];
      cbn [fst snd] in *.
    + destruct (IH bot1 log1) as [events' [Hlog' [Hall' Htexts']]].
      destruct (run_cycles bot1 draws log1) as [[[bot2 more]|e] log2];
        cbn [fst snd] in *; subst log1 log2;
        exists (events ++ events')%list; rewrite app_assoc;
        (split; [reflexivity|]); (split; [now apply Forall_app|]).
      * intros bot' outputs E. injection E as _ <-.
        rewrite texts_logged_app, (Htexts bot1 output eq_refl),
          (Htexts' bot2 more eq_refl).
        unfold texts_returned. cbn [flat_map]. now rewrite app_nil_r.
      * discriminate.
    + exists events. repeat split; [exact Hlog|exact Hall|discriminate].
Qed.

(** X20: the audit trail of a run of [main], to its end or to the exception
    that stops it.  The log is only added to; what is added is at most one
    MODEL_INITIALIZED event, followed by EVIDENCE_GENERATED and
    TEXT_GENERATED events only: no pass is refused by the explainer and none
    fails the sum validation.  In a run that reaches its end, the texts
    logged are the texts returned, pass by pass. *)
Theorem main_audit_trail
  (files : option (Predictor * list string))
  (shap : option (Explainer * list string)) (draws : nat -> Draw)
  (log : list event) :
  exists started events,
    snd (run_main files shap draws log) = (log ++ started ++ events)%list /\
    (started = [] \/ exists details, started = [("MODEL_INITIALIZED", details)]) /\
    Forall (fun e => fst e = "EVIDENCE_GENERATED" \/ fst e = "TEXT_GENERATED")
      events /\
    forall bot outputs,
      fst (run_main files shap draws log) = Ok (bot, outputs) ->
      texts_logged events = texts_returned outputs.
Proof.
  cbv beta delta [main].
  destruct (Pricing.init files log) as [[model log0]|e] eqn:Hinit.
  - assert (Hlog0 : exists details,
               log0 = (log ++ [("MODEL_INITIALIZED", details)])%list).
    { unfold Pricing.init in Hinit. bound Hinit as p Hp.
      injection Hinit as _ <-. now eexists. }
    destruct Hlog0 as [details ->].
    rewrite analyze_change_first by reflexivity.
    destruct (cycles_trail (map draws (seq 1 5))
                {| pricing_model := model;
                   attribution_engine :=
                     set_previous_state (new_engine shap)
                       (Pricing.get_state model) |}
                (log ++ [("MODEL_INITIALIZED", details)])%list)
      as [events [Hlog [Hall Htexts]]].
    exists [("MODEL_INITIALIZED", details)], events.
    split; [now rewrite Hlog, <- app_assoc|].
    split; [right; now exists details|]. split; [exact Hall|exact Htexts].
  - exists [], []. cbn [fst snd]. rewrite !app_nil_r.
    repeat split; [now left|constructor|discriminate].
Qed.

End MainFacts.

Lemma main_returns_witness :
  exists bot outputs log',
    main plain_format plain_title
      (Some (doubling_predictor, Pricing.default_feature_names)) None
      draws_1 []
    = (Ok (bot, outputs), log') /\
    List.length outputs = 5%nat.
Proof.
  apply (main_returns plain_format plain_title
           (Some (doubling_predictor, Pricing.default_feature_names)) None).
  - intros row. eexists. reflexivity.
  - exact I.
Defined.

